(** * Brain: the decorative network generator and the search flow

    A shallow embedding of [generateBrainNetwork]
    (src/components/BrainVisualization.tsx) and of [searchWithOllama]
    (the home page component), with the properties their description
    states.

    JavaScript numbers are read as real numbers: [Math.floor] is [Zfloor],
    [Math.sqrt] is [sqrt], [Math.min]/[Math.max] are [Rmin]/[Rmax].  The
    calls of [Math.random()] are answered, in program order, by an oracle
    [random : nat -> R]; the k-th call returns [random k]. *)

From Stdlib Require Import Reals Lra Lia ZArith List String Ascii Bool Arith.
From Stdlib Require Import Decimal DecimalString DecimalNat.
From Stdlib Require Import Permutation.
Import ListNotations.

Open Scope R_scope.

(** ** Data model (src/types/index.ts) *)

Inductive NodeType : Type := main | secondary | connection.

Definition NodeType_eqb (a b : NodeType) : bool :=
  match a, b with
  | main, main | secondary, secondary | connection, connection => true
  | _, _ => false
  end.

Record BrainNode : Type := mkNode {
  id : string;
  x : R;
  y : R;
  radius : R;
  label : option string;
  type : NodeType;
  connections : list string
}.

Record BrainConnection : Type := mkConnection {
  source : string;
  target : string;
  strength : R
}.

(** ** Strings of loop indices

    The template literal [`node-${i}`] prints the index in decimal. *)

Definition string_of_nat (n : nat) : string :=
  NilZero.string_of_uint (Nat.to_uint n).

Definition node_id (i : nat) : string := ("node-" ++ string_of_nat i)%string.

(** ** The random source: a counter over the oracle *)

Definition Gen (A : Type) : Type := nat -> A * nat.

Definition ret {A : Type} (a : A) : Gen A := fun k => (a, k).

Definition bind {A B : Type} (m : Gen A) (f : A -> Gen B) : Gen B :=
  fun k => let (a, k') := m k in f a k'.

Notation "v <- m ;; f" := (bind m (fun v => f))
  (at level 61, m at next level, right associativity).

(** ** Constants of the generator *)

Record Central : Type := mkCentral {
  c_id : string;
  c_label : string;
  c_type : NodeType
}.

Definition centralNodes (showLabels : bool) : list Central :=
  if showLabels then
    [ mkCentral "mobility" "Mobility" main;
      mkCentral "funding" "Funding" main;
      mkCentral "electric-vehicles" "Electric Vehicles" main;
      mkCentral "startups" "Startups" main;
      mkCentral "europe" "Europe" main ]
  else
    [ mkCentral "mobility" "Mobility" main;
      mkCentral "funding" "Funding" main;
      mkCentral "startups" "Startups" main;
      mkCentral "technology" "Technology" main;
      mkCentral "europe" "Europe" main ].

Record Region : Type := mkRegion {
  centerX : R;
  centerY : R;
  size : R
}.

Definition brainRegions (width height : R) : list Region :=
  [ mkRegion (width * 0.35) (height * 0.3) 0.22;
    mkRegion (width * 0.65) (height * 0.3) 0.22;
    mkRegion (width * 0.5) (height * 0.25) 0.18;
    mkRegion (width * 0.5) (height * 0.4) 0.16;
    mkRegion (width * 0.4) (height * 0.2) 0.14;
    mkRegion (width * 0.6) (height * 0.2) 0.14 ].

(** Reading [brainRegions[k]].  The index is always in range in the
    generator (see [region_index_range]); the default stands for the
    [undefined] an index out of range would give. *)
Definition no_region : Region := mkRegion 0 0 0.

Definition regionAt (width height : R) (k : nat) : Region :=
  nth k (brainRegions width height) no_region.

(** [Math.min(180, Math.max(120, Math.floor((width * height) / 4000)))] *)
Definition nodeCount (width height : R) : Z :=
  Z.min 180 (Z.max 120 (Zfloor ((width * height) / 4000))).

(** The silhouette: an ellipse centred at (0.5 w, 0.3 h). *)
Definition normalizedX (width px : R) : R := (px - width * 0.5) / (width * 0.32).
Definition normalizedY (height py : R) : R := (py - height * 0.3) / (height * 0.25).

Definition distanceFromCenter (width height px py : R) : R :=
  sqrt (normalizedX width px * normalizedX width px
        + normalizedY height py * normalizedY height py).

(** Lines 102-105: a point outside the ellipse is pulled back onto the
    ray through it, at 0.95 of the boundary. *)
Definition clampToBrain (width height px py : R) : R * R :=
  let d := distanceFromCenter width height px py in
  if Rlt_dec 1 d then
    (width * 0.5 + (normalizedX width px / d) * (width * 0.32) * 0.95,
     height * 0.3 + (normalizedY height py / d) * (height * 0.25) * 0.95)
  else (px, py).

(** Euclidean distance, [Math.sqrt(Math.pow(dx, 2) + Math.pow(dy, 2))]. *)
Definition dist (a b : BrainNode) : R :=
  sqrt ((x a - x b) ^ 2 + (y a - y b) ^ 2).

(** The ceiling on the length of an edge, by type of the source node. *)
Definition maxDistance (width height : R) (t : NodeType) : R :=
  match t with
  | main => Rmin width height * 0.4
  | _ => Rmin width height * 0.2
  end.

(** The acceptance threshold of the j-th candidate. *)
Definition probability (t : NodeType) (j : nat) (connectionCount : Z) : R :=
  match t with
  | main => 0.8
  | _ => if Rlt_dec (INR j) (IZR connectionCount * 0.6) then 0.7 else 0.4
  end.

(** ** Nearest neighbours *)

Record Nearby : Type := mkNearby {
  node : BrainNode;
  index : nat;
  distance : R
}.

(** [Array.prototype.sort] with the comparator [a.distance - b.distance]:
    a stable sort by ascending distance. *)
Fixpoint insertNearby (a : Nearby) (l : list Nearby) : list Nearby :=
  match l with
  | [] => [a]
  | b :: l' =>
      if Rle_dec (distance a) (distance b) then a :: b :: l'
      else b :: insertNearby a l'
  end.

Definition sortNearby (l : list Nearby) : list Nearby :=
  fold_right insertNearby [] l.

Fixpoint mapi_from {A B : Type} (f : A -> nat -> B) (k : nat) (l : list A) : list B :=
  match l with
  | [] => []
  | a :: l' => f a k :: mapi_from f (S k) l'
  end.

Definition nearbyNodes (newNodes : list BrainNode) (n : BrainNode) (i : nat)
    (connectionCount : Z) : list Nearby :=
  firstn (Z.to_nat (connectionCount * 2))
    (sortNearby
       (filter (fun item => negb (index item =? i)%nat)
          (mapi_from (fun tgt k => mkNearby tgt k (dist n tgt)) 0 newNodes))).

(** [node.connections.push(id)] on the i-th node of the array. *)
Definition pushConnection (tid : string) (n : BrainNode) : BrainNode :=
  mkNode (id n) (x n) (y n) (radius n) (label n) (type n) (connections n ++ [tid]).

Fixpoint updateAt {A : Type} (i : nat) (f : A -> A) (l : list A) : list A :=
  match l, i with
  | [], _ => []
  | a :: l', O => f a :: l'
  | a :: l', S i' => a :: updateAt i' f l'
  end.

(** ** The generator *)

Section Generator.

(** The answers of [Math.random()], in program order. *)
Variable random : nat -> R.

Definition Math_random : Gen R := fun k => (random k, S k).

Variables width height : R.

(** Lines 56-68: one hub, in the region of its index. *)
Definition placeCentral (c : Central) (i : nat) : Gen BrainNode :=
  let region :=
    regionAt width height (i mod List.length (brainRegions width height)) in
  r1 <- Math_random ;;
  let angle := r1 * 2 * PI in
  r2 <- Math_random ;;
  let distance := r2 * Rmin width height * size region * 0.3 in
  r3 <- Math_random ;;
  ret (mkNode (c_id c)
         (centerX region + cos angle * distance)
         (centerY region + sin angle * distance)
         (12 + r3 * 3)
         (Some (c_label c))
         (c_type c)
         []).

Fixpoint placeCentrals (cs : list Central) (i : nat) (newNodes : list BrainNode)
    : Gen (list BrainNode) :=
  match cs with
  | [] => ret newNodes
  | c :: cs' =>
      n <- placeCentral c i ;;
      placeCentrals cs' (S i) (newNodes ++ [n])
  end.

(** [brainRegions[Math.floor(Math.random() * brainRegions.length)]] *)
Definition randomRegion : Gen Region :=
  r <- Math_random ;;
  ret (regionAt width height
         (Z.to_nat (Zfloor (r * INR (List.length (brainRegions width height)))))).

(** Lines 72-89: the raw position of a small node. *)
Definition rawPosition : Gen (R * R) :=
  r0 <- Math_random ;;
  if Rlt_dec 0.3 r0 then
    region <- randomRegion ;;
    r1 <- Math_random ;;
    let angle := r1 * 2 * PI in
    r2 <- Math_random ;;
    let distance := r2 * Rmin width height * size region * 0.8 in
    ret (centerX region + cos angle * distance,
         centerY region + sin angle * distance)
  else
    regionA <- randomRegion ;;
    regionB <- randomRegion ;;
    t <- Math_random ;;
    r1 <- Math_random ;;
    r2 <- Math_random ;;
    ret (centerX regionA + t * (centerX regionB - centerX regionA) + (r1 - 0.5) * 80,
         centerY regionA + t * (centerY regionB - centerY regionA) + (r2 - 0.5) * 80).

(** Lines 71-115: the body of the loop over the small nodes. *)
Definition placeNode (i : nat) : Gen BrainNode :=
  p <- rawPosition ;;
  let q := clampToBrain width height (fst p) (snd p) in
  r1 <- Math_random ;;
  r2 <- Math_random ;;
  ret (mkNode (node_id i) (fst q) (snd q)
         (r1 * 2 + 0.8)
         None
         (if Rlt_dec 0.85 r2 then secondary else connection)
         []).

Fixpoint placeNodes (idxs : list nat) (newNodes : list BrainNode)
    : Gen (list BrainNode) :=
  match idxs with
  | [] => ret newNodes
  | i :: idxs' =>
      n <- placeNode i ;;
      placeNodes idxs' (newNodes ++ [n])
  end.

(** Lines 120-122. *)
Definition connectionCount (t : NodeType) : Gen Z :=
  r <- Math_random ;;
  ret (match t with
       | main => Zfloor (r * 8 + 6)
       | _ => Zfloor (r * 5 + 3)
       end).

(** The number of turns of the loop of line 138. *)
Definition trials (cc : Z) (nearby : list Nearby) : nat :=
  Z.to_nat (Z.min cc (Z.of_nat (List.length nearby))).

Definition Network : Type := (list BrainNode * list BrainConnection)%type.

(** Lines 139-158: one turn of the inner loop for the node [n] of index
    [i].  [j] stays below the length of [nearby], so the read
    [nearby[j]] never misses. *)
Definition tryConnect (n : BrainNode) (i : nat) (cc : Z) (nearby : list Nearby)
    (j : nat) (net : Network) : Gen Network :=
  match nth_error nearby j with
  | None => ret net
  | Some targetInfo =>
      r <- Math_random ;;
      if Rlt_dec r (probability (type n) j cc) then
        if Rlt_dec (distance targetInfo) (maxDistance width height (type n)) then
          ret (updateAt i (pushConnection (id (node targetInfo))) (fst net),
               snd net ++
               [mkConnection (id n) (id (node targetInfo))
                  (Rmax 0.2
                     (1 - distance targetInfo / maxDistance width height (type n)))])
        else ret net
      else ret net
  end.

Fixpoint tryConnects (n : BrainNode) (i : nat) (cc : Z) (nearby : list Nearby)
    (js : list nat) (net : Network) : Gen Network :=
  match js with
  | [] => ret net
  | j :: js' =>
      net' <- tryConnect n i cc nearby j net ;;
      tryConnects n i cc nearby js' net'
  end.

(** Lines 118-160: the callback of [newNodes.forEach], at index [i]. *)
Definition connectNode (i : nat) (net : Network) : Gen Network :=
  match nth_error (fst net) i with
  | None => ret net
  | Some n =>
      cc <- connectionCount (type n) ;;
      let nearby := nearbyNodes (fst net) n i cc in
      tryConnects n i cc nearby (seq 0 (trials cc nearby)) net
  end.

Fixpoint connectNodes (idxs : list nat) (net : Network) : Gen Network :=
  match idxs with
  | [] => ret net
  | i :: idxs' =>
      net' <- connectNode i net ;;
      connectNodes idxs' net'
  end.

Definition generateBrainNetwork (showLabels : bool) : Gen Network :=
  let cs := centralNodes showLabels in
  hubs <- placeCentrals cs 0 [] ;;
  newNodes <- placeNodes
                (seq (List.length cs)
                   (Z.to_nat (nodeCount width height) - List.length cs))
                hubs ;;
  connectNodes (seq 0 (List.length newNodes)) (newNodes, []).

(** The layout handed to the renderer: the generator run from the first
    call of [Math.random()]. *)
Definition generate (showLabels : bool) : Network :=
  fst (generateBrainNetwork showLabels 0%nat).

End Generator.

(** ** The search flow (home page component, [searchWithOllama])

    The awaited calls are answered by the ambient [fetch]; the component
    state is threaded explicitly and the console is a list of entries. *)

#[local] Unset Elimination Schemes.
Inductive Json : Type :=
  | JUndefined
  | JNull
  | JBool (b : bool)
  | JNum (r : R)
  | JStr (s : string)
  | JArr (l : list Json)
  | JObj (fields : list (string * Json)).
#[local] Set Elimination Schemes.

Record Request : Type := mkRequest {
  url : string;
  method : string;
  headers : list (string * string);
  body : Json
}.

(** What an awaited [fetch] gives: a rejection, or a response with its
    [ok] flag and what [response.json()] resolves to ([None] when the
    body does not parse). *)
Inductive FetchResult : Type :=
  | NetworkError
  | Response (ok : bool) (json : option Json).

(** What the component can reach without being passed it. *)
Record Ambient : Type := mkAmbient {
  env : string -> option string;
  fetch : Request -> FetchResult;
  zoomRandomX : R;
  zoomRandomY : R;
  windowWidth : R;
  windowHeight : R
}.

Record HomeState : Type := mkHome {
  searchQuery : string;
  showResults : bool;
  isLoading : bool;
  knowledgeGraph : Json;
  csvStartups : Json;
  zoomTarget : option (R * R);
  showSectorDropdown : bool
}.

Inductive LogEntry : Type :=
  | console_error (msg : string)
  | console_log (msg : string).

(** The effects of a run so far: state, console, requests sent. *)
Record Run : Type := mkRun {
  state : HomeState;
  console : list LogEntry;
  sent : list Request
}.

Inductive Completion : Type := Normal | Thrown.

Definition setIsLoading (b : bool) (s : HomeState) : HomeState :=
  mkHome (searchQuery s) (showResults s) b (knowledgeGraph s) (csvStartups s) (zoomTarget s)
    (showSectorDropdown s).
Definition setKnowledgeGraph (g : Json) (s : HomeState) : HomeState :=
  mkHome (searchQuery s) (showResults s) (isLoading s) g (csvStartups s) (zoomTarget s)
    (showSectorDropdown s).
Definition setCsvStartups (c : Json) (s : HomeState) : HomeState :=
  mkHome (searchQuery s) (showResults s) (isLoading s) (knowledgeGraph s) c (zoomTarget s)
    (showSectorDropdown s).
Definition setZoomTarget (z : option (R * R)) (s : HomeState) : HomeState :=
  mkHome (searchQuery s) (showResults s) (isLoading s) (knowledgeGraph s) (csvStartups s) z
    (showSectorDropdown s).
Definition setShowResults (b : bool) (s : HomeState) : HomeState :=
  mkHome (searchQuery s) b (isLoading s) (knowledgeGraph s) (csvStartups s) (zoomTarget s)
    (showSectorDropdown s).

Definition onState (f : HomeState -> HomeState) (r : Run) : Run :=
  mkRun (f (state r)) (console r) (sent r).
Definition logging (e : LogEntry) (r : Run) : Run :=
  mkRun (state r) (console r ++ [e]) (sent r).
Definition sending (q : Request) (r : Run) : Run :=
  mkRun (state r) (console r) (sent r ++ [q]).

Fixpoint lookupField (name : string) (fields : list (string * Json)) : Json :=
  match fields with
  | [] => JUndefined
  | (k, v) :: rest => if String.eqb k name then v else lookupField name rest
  end.

(** [data.name]: a [TypeError] ([None]) on [null] and [undefined],
    [undefined] where the property is absent. *)
Definition getProperty (v : Json) (name : string) : option Json :=
  match v with
  | JUndefined | JNull => None
  | JObj fields => Some (lookupField name fields)
  | _ => Some JUndefined
  end.

Definition truthy (v : Json) : bool :=
  match v with
  | JUndefined | JNull => false
  | JBool b => b
  | JNum r => if Req_dec_T r 0 then false else true
  | JStr s => negb (String.eqb s "")
  | JArr _ | JObj _ => true
  end.

(** [toLowerCase] on the letters A-Z. *)
Definition lowerAscii (c : ascii) : ascii :=
  let n := nat_of_ascii c in
  if ((65 <=? n) && (n <=? 90))%nat then ascii_of_nat (n + 32) else c.

Fixpoint toLowerCase (s : string) : string :=
  match s with
  | EmptyString => EmptyString
  | String c s' => String (lowerAscii c) (toLowerCase s')
  end.

Fixpoint includes (s sub : string) : bool :=
  String.prefix sub s ||
  match s with
  | EmptyString => false
  | String _ s' => includes s' sub
  end.

Definition searchRequest (query : string) : Request :=
  mkRequest "http://localhost:8001/api/search" "POST"
    [("Content-Type"%string, "application/json"%string)]
    (JObj [("query"%string, JStr query)]).

Definition sectorRequest : Request :=
  mkRequest "http://localhost:8001/api/startups/sector/Energy" "GET" [] JUndefined.

(** Lines 76-84: the inner [try]/[catch] around the sector lookup. *)
Definition csvLookup (amb : Ambient) (r : Run) : Run :=
  let r := sending sectorRequest r in
  match fetch amb sectorRequest with
  | NetworkError => logging (console_log "CSV search not available") r
  | Response false _ => r
  | Response true None => logging (console_log "CSV search not available") r
  | Response true (Some csvData) =>
      match getProperty csvData "startups" with
      | None => logging (console_log "CSV search not available") r
      | Some v => onState (setCsvStartups (if truthy v then v else JArr [])) r
      end
  end.

(** Lines 62-97: the body of the outer [try]. *)
Definition searchBody (amb : Ambient) (query : string) (r : Run) : Completion * Run :=
  let r := sending (searchRequest query) r in
  match fetch amb (searchRequest query) with
  | NetworkError => (Thrown, r)
  | Response false _ => (Normal, logging (console_error "Search failed") r)
  | Response true None => (Thrown, r)
  | Response true (Some data) =>
      match getProperty data "knowledge_graph" with
      | None => (Thrown, r)
      | Some g =>
          let r := onState (setKnowledgeGraph g) r in
          let q := toLowerCase (searchQuery (state r)) in
          let r :=
            if includes q "energy" || includes q "energia"
            then csvLookup amb r
            else onState (setCsvStartups (JArr [])) r in
          let randomX :=
            zoomRandomX amb * windowWidth amb * 0.3 + windowWidth amb * 0.2 in
          let randomY :=
            zoomRandomY amb * windowHeight amb * 0.3 + windowHeight amb * 0.2 in
          let r := onState (setZoomTarget (Some (randomX, randomY))) r in
          (Normal, onState (setShowResults true) r)
      end
  end.

(** Lines 59-103: [try] the body, [catch] logs, [finally] clears the
    loading flag.  The completion tells whether anything escapes. *)
Definition searchWithOllama (amb : Ambient) (query : string) (s : HomeState)
    : Completion * Run :=
  let r := onState (setIsLoading true) (mkRun s [] []) in
  let r :=
    match searchBody amb query r with
    | (Normal, r') => r'
    | (Thrown, r') => logging (console_error "Error searching:") r'
    end in
  (Normal, onState (setIsLoading false) r).

(** Line 295: the results panel is rendered when
    [showResults && knowledgeGraph]. *)
Definition resultsPanelShown (s : HomeState) : bool :=
  showResults s && truthy (knowledgeGraph s).

(** The submission fails: the call rejects or answers a non-success status. *)
Definition searchFails (amb : Ambient) (query : string) : Prop :=
  fetch amb (searchRequest query) = NetworkError \/
  exists j, fetch amb (searchRequest query) = Response false j.

(** ** The drawing (BrainVisualization, lines 170-322)

    What the effect appends to the svg, as data: a line per drawn
    connection and, per node, a circle and possibly a text.  The values
    kept are the ones the transitions end on; delays are in
    milliseconds. *)

Record Line : Type := mkLine {
  lx1 : R; ly1 : R; lx2 : R; ly2 : R;
  lineDelay : nat;
  lineOpacity : R
}.

Record Circle : Type := mkCircle {
  ccx : R; ccy : R; cr : R;
  cfill : string;
  cglow : bool;
  cdelay : nat;
  copacity : R;
  cclick : option BrainNode
}.

Record Caption : Type := mkCaption {
  tx : R; ty : R;
  ttext : string;
  tclass : string;
  tdelay : nat;
  topacity : R
}.

Inductive Element : Type :=
  | ECircle (c : Circle)
  | EText (t : Caption).

Record Scene : Type := mkScene {
  lines : list Line;
  elements : list Element
}.

(** [nodes.find(n => n.id === sid)] *)
Definition findNode (nodes : list BrainNode) (sid : string) : option BrainNode :=
  find (fun n => String.eqb (id n) sid) nodes.

(** Lines 214-237: [connections.forEach((connection, index) => ...)]. *)
Fixpoint drawConnections (nodes : list BrainNode)
    (connections : list BrainConnection) (index : nat) : list Line :=
  match connections with
  | [] => []
  | conn :: rest =>
      match findNode nodes (source conn), findNode nodes (target conn) with
      | Some sourceNode, Some targetNode =>
          [mkLine (x sourceNode) (y sourceNode) (x targetNode) (y targetNode)
             (index * 3) (strength conn * 0.3)]
      | _, _ => []
      end ++ drawConnections nodes rest (S index)
  end.

(** [node.label] as a condition: a string that is not empty. *)
Definition labelOf (n : BrainNode) : option string :=
  match label n with
  | Some l => if String.eqb l "" then None else Some l
  | None => None
  end.

(** Lines 242-296: the body of [nodes.forEach((node, index) => ...)]. *)
Definition drawNode (interactive showLabels : bool) (n : BrainNode) (index : nat)
    : list Element :=
  ECircle
    (mkCircle (x n) (y n) (radius n)
       (if NodeType_eqb (type n) main then "url(#brain-gradient)" else "#00b4d8")
       (NodeType_eqb (type n) main)
       (index * 4)
       (if NodeType_eqb (type n) main then 1 else 0.8)
       (if interactive then Some n else None))
  :: match labelOf n with
     | Some l =>
         if NodeType_eqb (type n) main then
           [EText
              (mkCaption (x n) (y n + radius n + 20) l
                 (if showLabels then "text-sm font-medium text-brain-cyan"
                  else "text-xs font-medium text-brain-cyan")
                 (index * 8 + 800)
                 (if showLabels then 1 else 0.9))]
         else []
     | None => []
     end.

Fixpoint drawNodes (interactive showLabels : bool) (nodes : list BrainNode)
    (index : nat) : list Element :=
  match nodes with
  | [] => []
  | n :: rest =>
      drawNode interactive showLabels n index
      ++ drawNodes interactive showLabels rest (S index)
  end.

(** The effect: nothing without a mounted svg or without nodes. *)
Definition draw (mounted interactive showLabels : bool)
    (nodes : list BrainNode) (connections : list BrainConnection) : option Scene :=
  if negb mounted || (List.length nodes =? 0)%nat then None
  else Some (mkScene (drawConnections nodes connections 0)
               (drawNodes interactive showLabels nodes 0)).

(** ** The other handlers of the home page *)

Definition setSearchQuery (q : string) (s : HomeState) : HomeState :=
  mkHome q (showResults s) (isLoading s) (knowledgeGraph s) (csvStartups s)
    (zoomTarget s) (showSectorDropdown s).

(** Lines 112-118: the back button of the results panel. *)
Definition handleBack (s : HomeState) : HomeState :=
  setSearchQuery ""
    (setZoomTarget None
       (setCsvStartups (JArr [])
          (setKnowledgeGraph JNull (setShowResults false s)))).

(** Lines 120-124: a click on a node of the visualization; the result is
    the address [navigate] is called with, if it is called. *)
Definition handleNodeClick (n : BrainNode) : option string :=
  match label n with
  | Some l =>
      if String.eqb l "" then None
      else Some ("/dashboard?focus=" ++ id n)%string
  | None => None
  end.

(** Lines 38-45: the effect on the [search] parameter of the address.
    [searchParam] is what [searchParams.get('search')] gives.  The call
    of [searchWithOllama] is the one of the render the effect belongs to:
    the [searchQuery] it reads is the one of the state [s], not the
    parameter just handed to [setSearchQuery]. *)
Definition searchFromUrl (amb : Ambient) (searchParam : option string)
    (s : HomeState) : Completion * Run :=
  match searchParam with
  | None => (Normal, mkRun s [] [])
  | Some p =>
      if String.eqb p "" then (Normal, mkRun s [] [])
      else
        let res := searchWithOllama amb p s in
        (fst res, onState (setSearchQuery p) (snd res))
  end.

(** The state of a freshly mounted home page (the [useState] defaults). *)
Definition initialHome : HomeState :=
  mkHome "" false false JNull (JArr []) None false.

(** ** Text cleaning (home page, lines 128-130, 328, 350, 375)

    These expressions look at characters, so here a string is the list of
    its UTF-16 code units, as regular expressions without the [u] flag
    and [trim] see it. *)

Definition JsString : Type := list N.

(** The code units of a literal of ASCII characters. *)
Definition units (s : string) : JsString :=
  map N_of_ascii (list_ascii_of_string s).

(** White space and line terminators: what [\s] matches and [trim]
    strips (TAB, LF, VT, FF, CR, SP, NBSP, U+1680, U+2000-U+200A, LS, PS,
    U+202F, U+205F, U+3000, U+FEFF). *)
Definition isWhiteSpace (c : N) : bool :=
  ((9 <=? c) && (c <=? 13) || (c =? 32) || (c =? 160) || (c =? 5760)
   || (8192 <=? c) && (c <=? 8202) || (c =? 8232) || (c =? 8233)
   || (c =? 8239) || (c =? 8287) || (c =? 12288) || (c =? 65279))%N.

(** [\w]: A-Z, a-z, 0-9 and _. *)
Definition isWordChar (c : N) : bool :=
  ((65 <=? c) && (c <=? 90) || (97 <=? c) && (c <=? 122)
   || (48 <=? c) && (c <=? 57) || (c =? 95))%N.

Fixpoint trimStart (s : JsString) : JsString :=
  match s with
  | [] => []
  | c :: r => if isWhiteSpace c then trimStart r else s
  end.

Definition trimEnd (s : JsString) : JsString :=
  List.rev (trimStart (List.rev s)).

Definition trim (s : JsString) : JsString := trimEnd (trimStart s).

(** [.replace(/\*+/g, '')]: every asterisk goes. *)
Definition removeStars (s : JsString) : JsString :=
  filter (fun c => negb (c =? 42)%N) s.

(** [.replace(/\n+/g, ' ')]: every maximal run of line feeds becomes one
    space; [inRun] tells that the previous code unit was a line feed. *)
Fixpoint collapseNewlines (inRun : bool) (s : JsString) : JsString :=
  match s with
  | [] => []
  | c :: r =>
      if (c =? 10)%N then
        if inRun then collapseNewlines true r
        else 32%N :: collapseNewlines true r
      else c :: collapseNewlines false r
  end.

(** Lines 328 and 375: the chain
    [.replace(/\*+/g, '').replace(/\n+/g, ' ').trim()]. *)
Definition cleanText (s : JsString) : JsString :=
  trim (collapseNewlines false (removeStars s)).

(** Line 328: the summary as displayed,
    [(knowledgeGraph.summary || "Analisi ...")] through the chain.
    [None] is a missing summary ([undefined] or [null]); an empty string
    is falsy too. *)
Definition defaultSummary : JsString :=
  units "Analisi AI generata basata sulla tua ricerca.".

Definition displaySummary (summary : option JsString) : JsString :=
  cleanText
    match summary with
    | Some (c :: r) => c :: r
    | _ => defaultSummary
    end.

(** Line 375: an insight as displayed. *)
Definition displayInsight (insight : JsString) : JsString := cleanText insight.

(** Line 350: the label of a concept, as displayed. *)
Definition cleanLabel (s : JsString) : JsString := trim (removeStars s).

(** Line 128: [sector.replace(/[^\w\s&]/g, '').trim()]. *)
Definition sectorChar (c : N) : bool :=
  isWordChar c || isWhiteSpace c || (c =? 38)%N.

Definition cleanSector (sector : JsString) : JsString :=
  trim (filter sectorChar sector).

(** Lines 129-130: the query searched for a sector of the dropdown. *)
Definition sectorQuery (sector : JsString) : JsString :=
  cleanSector sector ++ units " startups 2024".

(** Lines 22-35: the sectors of the dropdown; each starts with an emoji,
    two or three code units. *)
Definition exampleSectors : list JsString :=
  [ [55356; 57318]%N ++ units " Fintech & Blockchain";
    [55358; 56598]%N ++ units " AI & Machine Learning";
    [55357; 56458]%N ++ units " Healthtech & Biotech";
    [55356; 57137]%N ++ units " Cleantech & Sustainability";
    [55357; 56983]%N ++ units " Mobility & EV";
    [55356; 57235]%N ++ units " Edtech & Learning";
    [55356; 57213; 65039]%N ++ units " Foodtech & AgTech";
    [55356; 57312]%N ++ units " Proptech & Real Estate";
    [55357; 57057; 65039]%N ++ units " Cybersecurity";
    [55356; 57262]%N ++ units " Gaming & Metaverse";
    [55357; 56960]%N ++ units " Space Tech";
    [55357; 56405]%N ++ units " Fashion & Wearables" ].

(** * Vocabulary of the properties *)

(** A node without the neighbour list the connection phase fills in. *)
Definition erase (n : BrainNode) : BrainNode :=
  mkNode (id n) (x n) (y n) (radius n) (label n) (type n) [].

Definition skeleton (l : list BrainNode) : list BrainNode := map erase l.

Definition placement (random : nat -> R) (width height : R) (showLabels : bool)
    : Gen (list BrainNode) :=
  let cs := centralNodes showLabels in
  hubs <- placeCentrals random width height cs 0 [] ;;
  placeNodes random width height
    (seq (List.length cs) (Z.to_nat (nodeCount width height) - List.length cs))
    hubs.

Definition placed (random : nat -> R) (width height : R) (showLabels : bool)
    : list BrainNode :=
  fst (placement random width height showLabels 0%nat).

(** Ascending distances. *)
Definition ascending (l : list Nearby) : Prop :=
  forall i j a b, (i <= j)%nat ->
    nth_error l i = Some a -> nth_error l j = Some b ->
    distance a <= distance b.

(** The edge the turn [j] of the inner loop records for the node [n], when
    the draw of that turn is [r]: none, or one. *)
Definition accepted (width height : R) (n : BrainNode) (cc : Z)
    (nearby : list Nearby) (j : nat) (r : R) : list BrainConnection :=
  match nth_error nearby j with
  | None => []
  | Some targetInfo =>
      if Rlt_dec r (probability (type n) j cc) then
        if Rlt_dec (distance targetInfo) (maxDistance width height (type n)) then
          [mkConnection (id n) (id (node targetInfo))
             (Rmax 0.2 (1 - distance targetInfo / maxDistance width height (type n)))]
        else []
      else []
  end.

(** The callbacks of [newNodes.forEach] as they run: for each, the index of
    its node, the network it finds and the number of draws made before. *)
Fixpoint connectTrace (random : nat -> R) (width height : R) (idxs : list nat)
    (net : Network) (k : nat) : list (nat * Network * nat) :=
  match idxs with
  | [] => []
  | i :: idxs' =>
      (i, net, k)
      :: connectTrace random width height idxs'
           (fst (connectNode random width height i net k))
           (snd (connectNode random width height i net k))
  end.

(** The edges the turns [0 .. trials-1] of one callback record. *)
Definition recordedBy (random : nat -> R) (width height : R)
    (call : nat * Network * nat) : list BrainConnection :=
  let '(i, net, k) := call in
  match nth_error (fst net) i with
  | None => []
  | Some n =>
      let cc := fst (connectionCount random (type n) k) in
      let nearby := nearbyNodes (fst net) n i cc in
      flat_map
        (fun j => accepted width height n cc nearby j (random (S k + j)%nat))
        (seq 0 (trials cc nearby))
  end.

(** The callbacks of the connection phase of a layout, in order. *)
Definition callbacks (random : nat -> R) (width height : R) (showLabels : bool)
    : list (nat * Network * nat) :=
  connectTrace random width height
    (seq 0 (List.length (placed random width height showLabels)))
    (placed random width height showLabels, [])
    (snd (placement random width height showLabels 0%nat)).

(** An edge is justified by a list of nodes when it joins two nodes of
    the list, at different indices, closer than the ceiling of the source,
    with the strength line 154 computes from their distance. *)
Definition justified (width height : R) (nodes : list BrainNode)
    (e : BrainConnection) : Prop :=
  exists i j s t,
    i <> j /\
    nth_error nodes i = Some s /\ nth_error nodes j = Some t /\
    source e = id s /\ target e = id t /\
    dist s t < maxDistance width height (type s) /\
    strength e = Rmax 0.2 (1 - dist s t / maxDistance width height (type s)).

Definition clampZ (v lo hi : Z) : Z := Z.min hi (Z.max lo v).
Definition clampR (v lo hi : R) : R := Rmin hi (Rmax lo v).

Definition hasLabel (n : BrainNode) : bool :=
  match label n with Some _ => true | None => false end.

Definition isMain (n : BrainNode) : bool := NodeType_eqb (type n) main.

Definition inside (width height : R) (n : BrainNode) : Prop :=
  distanceFromCenter width height (x n) (y n) <= 1.

(** The targets of the edges that leave the node of identifier [sid],
    in the order the edges were recorded. *)
Definition targetsOf (sid : string) (edges : list BrainConnection) : list string :=
  map target (filter (fun e => String.eqb (source e) sid) edges).

(** A network whose neighbour lists agree with its edges. *)
Definition consistent (net : Network) : Prop :=
  Forall (fun n => connections n = targetsOf (id n) (snd net)) (fst net).



(** The radius the placement gives a node, by type. *)
Definition radiusInRange (n : BrainNode) : Prop :=
  match type n with
  | main => 12 <= radius n <= 15
  | _ => 0.8 <= radius n <= 2.8
  end.

(** Every edge recorded so far leaves a node of index below [a]. *)
Definition sourcesBelow (sk : list BrainNode) (a : nat)
    (edges : list BrainConnection) : Prop :=
  forall e, In e edges ->
    exists i n, (i < a)%nat /\ nth_error sk i = Some n /\ source e = id n.

(** An edge as a directed pair. *)
Definition directed (e : BrainConnection) : string * string :=
  (source e, target e).

(** The ways the sector lookup of lines 76-84 can fail. *)
Definition sectorLookupFails (amb : Ambient) : Prop :=
  fetch amb sectorRequest = NetworkError \/
  (exists j, fetch amb sectorRequest = Response false j) \/
  fetch amb sectorRequest = Response true None \/
  fetch amb sectorRequest = Response true (Some JNull).

(** What a click on the hub made from [c] does. *)
Definition clickOfCentral (c : Central) : option string :=
  if String.eqb (c_label c) "" then None
  else Some ("/dashboard?focus=" ++ c_id c)%string.

(** The texts of a drawing, in document order. *)
Fixpoint captions (l : list Element) : list Caption :=
  match l with
  | [] => []
  | ECircle _ :: r => captions r
  | EText t :: r => t :: captions r
  end.

Fixpoint circles (l : list Element) : list Circle :=
  match l with
  | [] => []
  | ECircle c :: r => c :: circles r
  | EText _ :: r => circles r
  end.

(** The line drawn for the edge [e] at place [index] of the edge list,
    from the node [s] to the node [t]. *)
Definition lineFor (e : BrainConnection) (index : nat) (s t : BrainNode) : Line :=
  mkLine (x s) (y s) (x t) (y t) (index * 3) (strength e * 0.3).

(** The text drawn under a node, if any (lines 280-295). *)
Definition captionText (n : BrainNode) : list string :=
  match labelOf n with
  | Some l => if NodeType_eqb (type n) main then [l] else []
  | None => []
  end.

(** A string with no white space at either end. *)
Definition trimmed (s : JsString) : Prop :=
  (forall c, hd_error s = Some c -> isWhiteSpace c = false) /\
  (forall c, hd_error (List.rev s) = Some c -> isWhiteSpace c = false).

(** ** Inputs of the examples *)

Definition offline : Ambient :=
  mkAmbient (fun _ => None) (fun _ => NetworkError) 0 0 800 600.

Definition landing : HomeState :=
  mkHome "mobility" false false JNull (JArr []) None false.

(** An environment that names a backend, as the deployment guide asks. *)
Definition deployed : Ambient :=
  mkAmbient
    (fun name =>
       if String.eqb name "REACT_APP_API_URL"
       then Some "https://backend.example"%string else None)
    (fun _ => NetworkError) 0 0 800 600.

(** The body of the end-to-end scenario of the description. *)
Definition scenarioBody : Json :=
  JObj [("knowledge_graph"%string,
         JObj [("summary"%string, JStr "x");
               ("nodes"%string,
                JArr [JObj [("id"%string, JStr "1"); ("label"%string, JStr "a")]]);
               ("insights"%string, JArr [JStr "b"])])].

(** A backend that answers the search and refuses the sector lookup. *)
Definition online : Ambient :=
  mkAmbient (fun _ => None)
    (fun q =>
       if String.eqb (url q) "http://localhost:8001/api/search"
       then Response true (Some scenarioBody) else NetworkError)
    0 0 800 600.

(** A page whose previous search was about energy and listed a startup. *)
Definition afterEnergy : HomeState :=
  mkHome "Energy storage" true false (JObj [])
    (JArr [JObj [("name"%string, JStr "Voltaic")]]) None false.


(** * Properties *)

Lemma bind_eq {A B : Type} (m : Gen A) (f : A -> Gen B) k :
  bind m f k = f (fst (m k)) (snd (m k)).
Proof. unfold bind. now destruct (m k). Qed.

(** ** Lists and the updates of the connection phase *)

Lemma erase_pushConnection tid n : erase (pushConnection tid n) = erase n.
Proof. reflexivity. Qed.

Lemma skeleton_updateAt i tid l :
  skeleton (updateAt i (pushConnection tid) l) = skeleton l.
Proof.
  revert i; induction l as [|a l IH]; intros [|i]; simpl; trivial.
  now rewrite IH.
Qed.

Lemma skeleton_length l : List.length (skeleton l) = List.length l.
Proof. apply length_map. Qed.

Lemma skeleton_nth_error l i s :
  nth_error l i = Some s -> nth_error (skeleton l) i = Some (erase s).
Proof. intros H. unfold skeleton. now rewrite nth_error_map, H. Qed.

Lemma nth_error_skeleton l i s0 :
  nth_error (skeleton l) i = Some s0 ->
  exists s, nth_error l i = Some s /\ erase s = s0.
Proof.
  unfold skeleton. rewrite nth_error_map.
  destruct (nth_error l i) as [s|]; simpl; intros H; inversion H; eauto.
Qed.

Lemma mapi_from_In {A B : Type} (f : A -> nat -> B) k l b :
  In b (mapi_from f k l) ->
  exists a i, nth_error l i = Some a /\ b = f a (k + i)%nat.
Proof.
  revert k; induction l as [|a l IH]; simpl; intros k H; [easy|].
  destruct H as [<-|H].
  - exists a, 0%nat. now rewrite Nat.add_0_r.
  - destruct (IH _ H) as (a' & i & Hi & ->).
    exists a', (S i). split; [exact Hi|]. f_equal. lia.
Qed.

Lemma mapi_from_length {A B : Type} (f : A -> nat -> B) k l :
  List.length (mapi_from f k l) = List.length l.
Proof. revert k; induction l; simpl; intros; auto. Qed.

Lemma insertNearby_In a b l : In b (insertNearby a l) <-> b = a \/ In b l.
Proof.
  induction l as [|c l IH]; simpl.
  - intuition.
  - destruct (Rle_dec (distance a) (distance c)); simpl; rewrite ?IH; intuition.
Qed.

Lemma sortNearby_In b l : In b (sortNearby l) <-> In b l.
Proof.
  induction l as [|a l IH]; simpl; [tauto|].
  rewrite insertNearby_In, IH. intuition.
Qed.

Lemma insertNearby_length a l :
  List.length (insertNearby a l) = S (List.length l).
Proof.
  induction l as [|c l IH]; simpl; trivial.
  destruct (Rle_dec (distance a) (distance c)); simpl; auto.
Qed.

Lemma sortNearby_length l : List.length (sortNearby l) = List.length l.
Proof.
  induction l as [|a l IH]; simpl; trivial.
  now rewrite insertNearby_length, IH.
Qed.

Lemma ascending_cons a l :
  (forall b, In b l -> distance a <= distance b) -> ascending l ->
  ascending (a :: l).
Proof.
  intros Ha Hl [|i] [|j] u v Hij; simpl; intros Hu Hv.
  - inversion Hu; inversion Hv; subst. lra.
  - inversion Hu; subst. apply Ha. eapply nth_error_In; eauto.
  - lia.
  - apply (Hl i j); trivial. lia.
Qed.

Lemma ascending_inv a l :
  ascending (a :: l) ->
  (forall b, In b l -> distance a <= distance b) /\ ascending l.
Proof.
  intros H; split.
  - intros b Hb. destruct (In_nth_error _ _ Hb) as [j Hj].
    apply (H 0%nat (S j)); simpl; trivial. lia.
  - intros i j u v Hij Hu Hv. apply (H (S i) (S j)); simpl; trivial. lia.
Qed.

Lemma insertNearby_ascending a l : ascending l -> ascending (insertNearby a l).
Proof.
  induction l as [|c l IH]; simpl; intros Hl.
  - apply ascending_cons; [easy|]. intros [|i] [|j] ? ? ?; simpl; intros; discriminate.
  - destruct (ascending_inv _ _ Hl) as [Hc Hl'].
    destruct (Rle_dec (distance a) (distance c)) as [Hle|Hgt].
    + apply ascending_cons; trivial.
      intros b [<-|Hb]; trivial. specialize (Hc _ Hb). lra.
    + apply ascending_cons; [|auto].
      intros b Hb. apply insertNearby_In in Hb. destruct Hb as [->|Hb]; [lra|auto].
Qed.

Lemma sortNearby_ascending l : ascending (sortNearby l).
Proof.
  induction l as [|a l IH]; simpl.
  - intros [|i] [|j] ? ? ?; simpl; intros; discriminate.
  - now apply insertNearby_ascending.
Qed.

(** ** The placement loops *)

Section Placement.

Variable random : nat -> R.
Variables width height : R.

Lemma placeCentrals_spec cs : forall i acc k,
  exists hubs,
    fst (placeCentrals random width height cs i acc k) = acc ++ hubs /\
    Forall2 (fun ci n => exists k', n = fst (placeCentral random width height (fst ci) (snd ci) k'))
      (combine cs (seq i (List.length cs))) hubs.
Proof.
  induction cs as [|c cs IH]; intros i acc k.
  - exists []. simpl. rewrite app_nil_r. split; [reflexivity|constructor].
  - cbn [placeCentrals List.length seq combine]. unfold bind at 1.
    destruct (placeCentral random width height c i k) as [n k1] eqn:E.
    destruct (IH (S i) (acc ++ [n]) k1) as (hubs & Hh & HF).
    exists (n :: hubs). split.
    + rewrite Hh, <- app_assoc. reflexivity.
    + constructor; trivial. exists k. cbn [fst snd]. now rewrite E.
Qed.

Lemma placeNodes_spec idxs : forall acc k,
  exists small,
    fst (placeNodes random width height idxs acc k) = acc ++ small /\
    Forall2 (fun i n => exists k', n = fst (placeNode random width height i k'))
      idxs small.
Proof.
  induction idxs as [|i idxs IH]; intros acc k.
  - exists []. simpl. rewrite app_nil_r. split; [reflexivity|constructor].
  - cbn [placeNodes]. unfold bind at 1.
    destruct (placeNode random width height i k) as [n k1] eqn:E.
    destruct (IH (acc ++ [n]) k1) as (small & Hs & HF).
    exists (n :: small). split.
    + rewrite Hs, <- app_assoc. reflexivity.
    + constructor; trivial. exists k. now rewrite E.
Qed.

(** What one hub carries, whatever the draws. *)
Lemma placeCentral_fields c i k :
  let n := fst (placeCentral random width height c i k) in
  id n = c_id c /\ label n = Some (c_label c) /\ type n = c_type c.
Proof. cbv [placeCentral bind Math_random ret fst]. auto. Qed.

(** What one small node carries, whatever the draws. *)
Lemma placeNode_fields i k :
  let n := fst (placeNode random width height i k) in
  id n = node_id i /\ label n = None /\ type n <> main.
Proof.
  unfold placeNode, bind.
  destruct (rawPosition random width height k) as [p k1].
  cbv [Math_random ret fst]. simpl.
  repeat split. destruct (Rlt_dec 0.85 (random (S k1))); discriminate.
Qed.

End Placement.

(** ** The connection phase *)

Section Connection.

Variable random : nat -> R.
Variables width height : R.

Lemma tryConnect_spec n i cc nearby j net k :
  (j < List.length nearby)%nat ->
  let res := tryConnect random width height n i cc nearby j net k in
  skeleton (fst (fst res)) = skeleton (fst net) /\
  snd (fst res) = snd net ++ accepted width height n cc nearby j (random k) /\
  snd res = S k.
Proof.
  intros Hj. unfold tryConnect, accepted.
  destruct (nth_error nearby j) as [t|] eqn:E.
  - cbv [bind Math_random ret].
    destruct (Rlt_dec (random k) (probability (type n) j cc));
      [destruct (Rlt_dec (distance t) (maxDistance width height (type n)))|];
      cbn [fst snd]; rewrite ?skeleton_updateAt, ?app_nil_r; auto.
  - apply nth_error_None in E. lia.
Qed.

Lemma tryConnects_spec n i cc nearby T : forall a net k,
  (a + T <= List.length nearby)%nat ->
  let res := tryConnects random width height n i cc nearby (seq a T) net k in
  skeleton (fst (fst res)) = skeleton (fst net) /\
  snd (fst res) =
    snd net ++
    flat_map (fun j => accepted width height n cc nearby j (random (k + (j - a))))
      (seq a T) /\
  snd res = (k + T)%nat.
Proof.
  induction T as [|T IH]; intros a net k Ha.
  - cbn. rewrite app_nil_r, Nat.add_0_r. auto.
  - cbn [seq tryConnects flat_map]. rewrite bind_eq.
    destruct (tryConnect_spec n i cc nearby a net k) as (Hs & He & Hk); [lia|].
    destruct (tryConnect random width height n i cc nearby a net k) as [net1 k1].
    cbn [fst snd] in Hs, He, Hk |- *. subst k1.
    destruct (IH (S a) net1 (S k)) as (Hs' & He' & Hk'); [lia|].
    cbn zeta in Hs', He', Hk'. cbn zeta.
    rewrite Hs', He', Hk', Hs, He, <- app_assoc, Nat.sub_diag, Nat.add_0_r.
    repeat split; [|lia].
    do 2 f_equal. rewrite !flat_map_concat_map. f_equal.
    apply map_ext_in. intros j Hj. apply in_seq in Hj.
    do 2 f_equal. lia.
Qed.

Lemma trials_le cc nearby : (trials cc nearby <= List.length nearby)%nat.
Proof. unfold trials. lia. Qed.

(** The whole callback at index [i]: one draw for the target count, then
    one draw per turn, over the first [trials] candidates only. *)
Lemma connectNode_spec i net k n :
  nth_error (fst net) i = Some n ->
  let cc := fst (connectionCount random (type n) k) in
  let nearby := nearbyNodes (fst net) n i cc in
  let res := connectNode random width height i net k in
  skeleton (fst (fst res)) = skeleton (fst net) /\
  snd (fst res) =
    snd net ++
    flat_map (fun j => accepted width height n cc nearby j (random (S k + j)))
      (seq 0 (trials cc nearby)).
Proof.
  intros Hn. unfold connectNode. rewrite Hn. unfold bind at 1.
  cbv [connectionCount bind Math_random ret]. cbn [fst snd].
  set (cc := match type n with main => _ | _ => _ end).
  destruct (tryConnects_spec n i cc (nearbyNodes (fst net) n i cc)
              (trials cc (nearbyNodes (fst net) n i cc)) 0%nat net (S k))
    as (Hs & He & _); [apply trials_le|].
  cbn zeta in Hs, He. split; [exact Hs|].
  rewrite He. f_equal. apply flat_map_ext. intros j. now rewrite Nat.sub_0_r.
Qed.

Lemma connectNode_none i net k :
  nth_error (fst net) i = None ->
  fst (connectNode random width height i net k) = net.
Proof. intros H. unfold connectNode. now rewrite H. Qed.

(** A property of every edge a turn can record, over a fixed skeleton,
    holds of every edge of the phase. *)
Lemma connectNodes_inv (P : BrainConnection -> Prop) (sk : list BrainNode) :
  (forall nodes i n cc j r e,
      skeleton nodes = sk -> nth_error nodes i = Some n ->
      In e (accepted width height n cc (nearbyNodes nodes n i cc) j r) -> P e) ->
  forall idxs net k,
    skeleton (fst net) = sk -> Forall P (snd net) ->
    let res := fst (connectNodes random width height idxs net k) in
    skeleton (fst res) = sk /\ Forall P (snd res).
Proof.
  intros HP. induction idxs as [|i idxs IH]; intros net k Hsk HF.
  - cbn. auto.
  - cbn [connectNodes]. rewrite bind_eq.
    assert (H1 : skeleton (fst (fst (connectNode random width height i net k))) = sk /\
                 Forall P (snd (fst (connectNode random width height i net k)))).
    { destruct (nth_error (fst net) i) as [n|] eqn:Hn.
      - destruct (connectNode_spec i net k n Hn) as [Hs He].
        cbn zeta in Hs, He. rewrite Hs, He. split; trivial.
        apply Forall_app; split; trivial.
        apply Forall_forall. intros e He'. apply in_flat_map in He'.
        destruct He' as (j & _ & Hj). eapply HP; eauto.
      - rewrite (connectNode_none i net k Hn). auto. }
    destruct H1 as [Hs1 HF1]. apply IH; assumption.
Qed.

End Connection.

(** ** Region indices *)

Lemma Zfloor_range (v : R) (lo hi : Z) :
  IZR lo <= v < IZR hi + 1 -> (lo <= Zfloor v <= hi)%Z.
Proof.
  intros [Hlo Hhi]. split; [now apply Zfloor_lub|].
  pose proof (Zfloor_bound v) as [Hf _].
  assert (H : IZR (Zfloor v) < IZR (hi + 1)) by (rewrite plus_IZR; lra).
  apply lt_IZR in H. lia.
Qed.

Lemma region_index_range (width height r : R) :
  0 <= r < 1 ->
  (Z.to_nat (Zfloor (r * INR (List.length (brainRegions width height))))
   < List.length (brainRegions width height))%nat.
Proof.
  intros Hr. cbn [brainRegions List.length].
  replace (INR 6) with 6 by (cbn; lra).
  assert (H : (0 <= Zfloor (r * 6) <= 5)%Z) by (apply Zfloor_range; lra).
  lia.
Qed.

(** ** Identifiers *)

Lemma to_uint_nonnil n : Nat.to_uint n <> Nil.
Proof.
  rewrite <- (DecimalNat.Unsigned.of_to n) at 1.
  rewrite DecimalNat.Unsigned.to_of. apply DecimalFacts.unorm_nonnil.
Qed.

Lemma string_of_nat_inj a b : string_of_nat a = string_of_nat b -> a = b.
Proof.
  unfold string_of_nat. intros H.
  apply DecimalNat.Unsigned.to_uint_inj.
  pose proof (NilZero.usu _ (to_uint_nonnil a)) as Ha.
  pose proof (NilZero.usu _ (to_uint_nonnil b)) as Hb.
  rewrite H in Ha. congruence.
Qed.

Lemma node_id_inj a b : node_id a = node_id b -> a = b.
Proof.
  unfold node_id. cbn [String.append]. intros H.
  apply string_of_nat_inj. congruence.
Qed.

Lemma node_id_not_central showLabels i :
  ~ In (node_id i) (map c_id (centralNodes showLabels)).
Proof.
  unfold node_id. cbn [String.append].
  destruct showLabels; cbn; intuition discriminate.
Qed.

Lemma NoDup_map_inj {A B : Type} (f : A -> B) l :
  (forall a b, f a = f b -> a = b) -> NoDup l -> NoDup (map f l).
Proof.
  intros Hf. induction 1 as [|a l Ha Hl IH]; simpl; constructor; trivial.
  rewrite in_map_iff. intros (b & Hb & Hin). apply Hf in Hb. now subst.
Qed.

Lemma central_ids_NoDup showLabels : NoDup (map c_id (centralNodes showLabels)).
Proof.
  destruct showLabels; cbn;
    repeat (constructor; [cbn; intuition discriminate|]); constructor.
Qed.

Lemma Forall2_map_eq {A B C : Type} (f : A -> C) (g : B -> C) l l' :
  Forall2 (fun a b => g b = f a) l l' -> map g l' = map f l.
Proof. induction 1; simpl; congruence. Qed.

Lemma Forall2_weaken {A B : Type} (P Q : A -> B -> Prop) l l' :
  (forall a b, P a b -> Q a b) -> Forall2 P l l' -> Forall2 Q l l'.
Proof. intros H. induction 1; constructor; auto. Qed.

Lemma Forall2_Forall_r {A B : Type} (P : A -> B -> Prop) (Q : B -> Prop) l l' :
  (forall a b, In a l -> P a b -> Q b) -> Forall2 P l l' -> Forall Q l'.
Proof.
  intros H. induction 1 as [|a b l l' Hab HF IH]; constructor.
  - apply (H a); simpl; auto.
  - apply IH. intros a' b' Ha'. apply H. now right.
Qed.

(** ** The layout before the connection phase *)

Section Layout.

Variable random : nat -> R.
Variables width height : R.
Variable showLabels : bool.

Lemma generate_placed :
  generate random width height showLabels =
  fst (connectNodes random width height
         (seq 0 (List.length (placed random width height showLabels)))
         (placed random width height showLabels, [])
         (snd (placement random width height showLabels 0%nat))).
Proof.
  unfold generate, generateBrainNetwork, placed, placement.
  rewrite !bind_eq. reflexivity.
Qed.

(** The placed nodes: the hubs of the vocabulary, then the small nodes
    of the indices 5, 6, ... *)
Lemma placed_split :
  exists hubs small,
    placed random width height showLabels = hubs ++ small /\
    Forall2 (fun ci n => exists k', n = fst (placeCentral random width height (fst ci) (snd ci) k'))
      (combine (centralNodes showLabels) (seq 0 5)) hubs /\
    Forall2 (fun i n => exists k', n = fst (placeNode random width height i k'))
      (seq 5 (Z.to_nat (nodeCount width height) - 5)) small.
Proof.
  unfold placed, placement. rewrite bind_eq.
  destruct (placeCentrals_spec random width height (centralNodes showLabels) 0%nat [] 0%nat)
    as (hubs & Hh & HF).
  rewrite Hh. change ([] ++ hubs) with hubs in *.
  destruct (placeNodes_spec random width height
              (seq (List.length (centralNodes showLabels))
                 (Z.to_nat (nodeCount width height) - List.length (centralNodes showLabels)))
              hubs
              (snd (placeCentrals random width height (centralNodes showLabels) 0 [] 0%nat)))
    as (small & Hs & HF').
  exists hubs, small. rewrite Hs.
  assert (H5 : List.length (centralNodes showLabels) = 5%nat) by now destruct showLabels.
  rewrite H5 in *. auto.
Qed.

Lemma nodeCount_range : (120 <= nodeCount width height <= 180)%Z.
Proof. unfold nodeCount. lia. Qed.

Lemma placed_length :
  List.length (placed random width height showLabels) =
  Z.to_nat (nodeCount width height).
Proof.
  destruct placed_split as (hubs & small & -> & Hh & Hs).
  apply Forall2_length in Hh, Hs.
  rewrite length_app, <- Hh, <- Hs, length_combine, !length_seq.
  assert (H5 : List.length (centralNodes showLabels) = 5%nat) by now destruct showLabels.
  pose proof nodeCount_range. rewrite H5. lia.
Qed.

Lemma placed_ids :
  map id (placed random width height showLabels) =
  map c_id (centralNodes showLabels) ++
  map node_id (seq 5 (Z.to_nat (nodeCount width height) - 5)).
Proof.
  destruct placed_split as (hubs & small & -> & Hh & Hs).
  rewrite map_app. f_equal.
  - assert (H : map id hubs = map (fun ci => c_id (fst ci))
                                (combine (centralNodes showLabels) (seq 0 5))).
    { apply Forall2_map_eq. eapply Forall2_weaken; [|exact Hh].
      intros ci n [k' ->]. apply placeCentral_fields. }
    rewrite H. now destruct showLabels.
  - apply Forall2_map_eq. eapply Forall2_weaken; [|exact Hs].
    intros i n [k' ->]. apply placeNode_fields.
Qed.

Lemma placed_ids_NoDup : NoDup (map id (placed random width height showLabels)).
Proof.
  rewrite placed_ids. apply NoDup_app.
  - apply central_ids_NoDup.
  - apply NoDup_map_inj; [apply node_id_inj|apply seq_NoDup].
  - intros s Hs Hn. apply in_map_iff in Hn. destruct Hn as (i & <- & _).
    revert Hs. apply node_id_not_central.
Qed.

End Layout.

(** ** Candidates and recorded edges *)

Lemma In_firstn {A : Type} (a : A) k l : In a (firstn k l) -> In a l.
Proof.
  intros H. rewrite <- (firstn_skipn k l). apply in_or_app. now left.
Qed.

Lemma nearbyNodes_item nodes n i cc item :
  In item (nearbyNodes nodes n i cc) ->
  index item <> i /\
  nth_error nodes (index item) = Some (node item) /\
  distance item = dist n (node item).
Proof.
  unfold nearbyNodes. intros H.
  apply In_firstn in H. apply (proj1 (sortNearby_In _ _)) in H.
  apply filter_In in H. destruct H as [H Hi].
  apply mapi_from_In in H. destruct H as (tgt & k & Hk & ->).
  cbn in *. repeat split; trivial.
  apply negb_true_iff, Nat.eqb_neq in Hi. exact Hi.
Qed.

Lemma accepted_inv width height n cc nearby j r e :
  In e (accepted width height n cc nearby j r) ->
  exists item,
    nth_error nearby j = Some item /\
    r < probability (type n) j cc /\
    distance item < maxDistance width height (type n) /\
    e = mkConnection (id n) (id (node item))
          (Rmax 0.2 (1 - distance item / maxDistance width height (type n))).
Proof.
  unfold accepted. destruct (nth_error nearby j) as [item|]; [|easy].
  destruct (Rlt_dec r (probability (type n) j cc)); [|easy].
  destruct (Rlt_dec (distance item) (maxDistance width height (type n))); [|easy].
  intros [<-|[]]. exists item. auto.
Qed.

Lemma justified_skeleton width height nodes e :
  justified width height (skeleton nodes) e -> justified width height nodes e.
Proof.
  intros (i & j & s0 & t0 & Hij & Hs & Ht & H).
  apply nth_error_skeleton in Hs, Ht.
  destruct Hs as (s & Hs & <-), Ht as (t & Ht & <-).
  exists i, j, s, t. auto.
Qed.

Lemma skeleton_map {B : Type} (f : BrainNode -> B) l :
  (forall n, f (erase n) = f n) -> map f (skeleton l) = map f l.
Proof. intros H. unfold skeleton. rewrite map_map. apply map_ext, H. Qed.

Section Generated.

Variable random : nat -> R.
Variables width height : R.
Variable showLabels : bool.

(** The connection phase changes nothing of a node but its neighbour list. *)
Lemma generate_skeleton :
  skeleton (fst (generate random width height showLabels)) =
  skeleton (placed random width height showLabels).
Proof.
  rewrite generate_placed.
  apply (connectNodes_inv random width height (fun _ => True)); auto.
Qed.

Lemma generate_map {B : Type} (f : BrainNode -> B) :
  (forall n, f (erase n) = f n) ->
  map f (fst (generate random width height showLabels)) =
  map f (placed random width height showLabels).
Proof.
  intros H. rewrite <- (skeleton_map f _ H), generate_skeleton.
  now apply skeleton_map.
Qed.

Lemma generate_ids_NoDup :
  NoDup (map id (fst (generate random width height showLabels))).
Proof. rewrite (generate_map id); [apply placed_ids_NoDup|reflexivity]. Qed.

Lemma generate_length :
  List.length (fst (generate random width height showLabels)) =
  Z.to_nat (nodeCount width height).
Proof.
  rewrite <- (length_map id), (generate_map id), length_map by reflexivity.
  apply placed_length.
Qed.

(** Every edge of the layout is justified by the nodes of the layout. *)
Lemma generate_justified :
  Forall (justified width height (fst (generate random width height showLabels)))
    (snd (generate random width height showLabels)).
Proof.
  assert (H : Forall (justified width height
                        (skeleton (placed random width height showLabels)))
                (snd (generate random width height showLabels))).
  { rewrite generate_placed.
    apply (connectNodes_inv random width height
             (justified width height (skeleton (placed random width height showLabels)))
             (skeleton (placed random width height showLabels))); auto.
    intros nodes i n cc j r e Hsk Hn He.
    apply accepted_inv in He. destruct He as (item & Hj & _ & Hd & ->).
    apply nth_error_In, nearbyNodes_item in Hj. destruct Hj as (Hi & Ht & Hdist).
    exists i, (index item), (erase n), (erase (node item)).
    rewrite <- Hsk. rewrite Hdist in *.
    repeat split; auto using skeleton_nth_error. }
  rewrite <- generate_skeleton in H.
  eapply Forall_impl; [|exact H]. intros e. apply justified_skeleton.
Qed.

End Generated.

(** ** Node count *)

Lemma nodeCount_801_700 : nodeCount 801 700 = 140%Z.
Proof.
  unfold nodeCount. rewrite (Zfloor_eq 140); [reflexivity|lra].
Qed.

Lemma nodeCount_800_600 : nodeCount 800 600 = 120%Z.
Proof.
  unfold nodeCount. rewrite (Zfloor_eq 120); [reflexivity|lra].
Qed.

(** C1, as stated, fails: on a canvas of 801 by 700 the quotient
    801*700/4000 is 140.175, which stays 140.175 when clamped to
    [120,180]; the layout has 140 nodes. *)
Lemma node_count_not_clamped_quotient :
  INR (List.length (fst (generate (fun _ => 0) 801 700 false))) <>
  clampR ((801 * 700) / 4000) 120 180.
Proof.
  rewrite generate_length, nodeCount_801_700.
  rewrite INR_IZR_INZ, Z2Nat.id by lia.
  unfold clampR, Rmin, Rmax.
  destruct (Rle_dec 120 (801 * 700 / 4000)); [|lra].
  destruct (Rle_dec 180 (801 * 700 / 4000)); lra.
Qed.

(** C1, amended: for every positive width and height, the number of
    nodes of a layout is the integer part (floor) of width*height/4000,
    clamped to [120,180]; for a canvas of 800 by 600 it is exactly 120. *)
Theorem node_count_clamped_floor (random : nat -> R) (width height : R)
    (showLabels : bool) :
  0 < width -> 0 < height ->
  Z.of_nat (List.length (fst (generate random width height showLabels))) =
    clampZ (Zfloor ((width * height) / 4000)) 120 180 /\
  List.length (fst (generate random 800 600 showLabels)) = 120%nat.
Proof.
  intros _ _. split.
  - rewrite generate_length.
    pose proof (nodeCount_range width height).
    rewrite Z2Nat.id by lia. reflexivity.
  - now rewrite generate_length, nodeCount_800_600.
Qed.

Lemma node_count_clamped_floor_witness :
  0 < 801 /\ 0 < 700 /\
  Z.of_nat (List.length (fst (generate (fun _ => 0) 801 700 false))) = 140%Z.
Proof.
  split; [lra|]. split; [lra|].
  rewrite (proj1 (node_count_clamped_floor (fun _ => 0) 801 700 false
                    ltac:(lra) ltac:(lra))).
  unfold clampZ. rewrite (Zfloor_eq 140); [reflexivity|lra].
Defined.

(** ** Identifiers and edge endpoints *)

(** C9: in a generated layout no two nodes, hub or not, share an
    identifier. *)
Theorem node_ids_unique (random : nat -> R) (width height : R) (showLabels : bool) :
  NoDup (map id (fst (generate random width height showLabels))).
Proof. apply generate_ids_NoDup. Qed.

(** C6: both identifiers of every edge of a generated layout are
    identifiers of nodes of the layout; the node identifiers are those
    of the nodes placed before the first edge is recorded, so they
    existed when the edge was recorded. *)
Theorem edges_reference_nodes (random : nat -> R) (width height : R)
    (showLabels : bool) :
  map id (fst (generate random width height showLabels)) =
  map id (placed random width height showLabels) /\
  Forall (fun e =>
            In (source e) (map id (fst (generate random width height showLabels))) /\
            In (target e) (map id (fst (generate random width height showLabels))))
    (snd (generate random width height showLabels)).
Proof.
  split; [now apply generate_map|].
  eapply Forall_impl; [|apply generate_justified].
  intros e (i & j & s & t & _ & Hs & Ht & -> & -> & _).
  split; apply in_map; eapply nth_error_In; eauto.
Qed.

(** C10: no edge of a generated layout joins a node to itself: the
    source identifier differs from the target identifier. *)
Theorem no_self_loop (random : nat -> R) (width height : R) (showLabels : bool) :
  Forall (fun e => source e <> target e)
    (snd (generate random width height showLabels)).
Proof.
  eapply Forall_impl; [|apply generate_justified].
  intros e (i & j & s & t & Hij & Hs & Ht & -> & -> & _) Heq.
  apply Hij.
  pose proof (generate_ids_NoDup random width height showLabels) as Hnd.
  rewrite NoDup_nth_error in Hnd. apply Hnd.
  - rewrite length_map. apply nth_error_Some. congruence.
  - rewrite !nth_error_map, Hs, Ht. cbn. now f_equal.
Qed.

(** ** Edge strength *)

Lemma maxDistance_pos width height t :
  0 < width -> 0 < height -> 0 < maxDistance width height t.
Proof.
  intros Hw Hh. assert (0 < Rmin width height) by (apply Rmin_glb_lt; trivial).
  destruct t; cbn; lra.
Qed.

Lemma dist_nonneg a b : 0 <= dist a b.
Proof. apply sqrt_pos. Qed.

Lemma strength_range d m : 0 <= d -> 0 < m -> 0 < Rmax 0.2 (1 - d / m) <= 1.
Proof.
  intros Hd Hm.
  assert (0 <= d / m).
  { apply Rmult_le_pos; [exact Hd|]. left. now apply Rinv_0_lt_compat. }
  unfold Rmax. destruct (Rle_dec 0.2 (1 - d / m)); lra.
Qed.

(** C2: on a canvas of positive width and height, every edge of a
    generated layout joins two nodes of the layout whose distance is
    below the ceiling for the type of the source node, its strength is
    max(0.2, 1 - distance/ceiling) for that ceiling, and the strength
    lies in (0,1]. *)
Theorem edge_strength (random : nat -> R) (width height : R) (showLabels : bool) :
  0 < width -> 0 < height ->
  Forall (fun e =>
            exists s t,
              In s (fst (generate random width height showLabels)) /\
              In t (fst (generate random width height showLabels)) /\
              source e = id s /\ target e = id t /\
              dist s t < maxDistance width height (type s) /\
              strength e =
                Rmax 0.2 (1 - dist s t / maxDistance width height (type s)) /\
              0 < strength e <= 1)
    (snd (generate random width height showLabels)).
Proof.
  intros Hw Hh.
  eapply Forall_impl; [|apply generate_justified].
  intros e (i & j & s & t & _ & Hs & Ht & Hsrc & Htgt & Hd & Hstr).
  exists s, t. repeat split; eauto using nth_error_In.
  - rewrite Hstr. apply strength_range; [apply dist_nonneg|now apply maxDistance_pos].
  - rewrite Hstr. apply strength_range; [apply dist_nonneg|now apply maxDistance_pos].
Qed.

Lemma edge_strength_witness :
  0 < 800 /\ 0 < 600 /\
  Forall (fun e =>
            exists s t,
              In s (fst (generate (fun _ => 0) 800 600 false)) /\
              In t (fst (generate (fun _ => 0) 800 600 false)) /\
              source e = id s /\ target e = id t /\
              dist s t < maxDistance 800 600 (type s) /\
              strength e = Rmax 0.2 (1 - dist s t / maxDistance 800 600 (type s)) /\
              0 < strength e <= 1)
    (snd (generate (fun _ => 0) 800 600 false)).
Proof.
  split; [lra|]. split; [lra|].
  apply (edge_strength (fun _ => 0) 800 600 false); lra.
Defined.

(** ** Hubs *)

Lemma filter_skeleton {B : Type} (g : BrainNode -> B) (p : BrainNode -> bool) l :
  (forall n, p (erase n) = p n) -> (forall n, g (erase n) = g n) ->
  map g (filter p (skeleton l)) = map g (filter p l).
Proof.
  intros Hp Hg. induction l as [|a l IH]; [reflexivity|].
  cbn [skeleton map filter]. rewrite Hp.
  destruct (p a); cbn [map]; [rewrite Hg; f_equal|]; exact IH.
Qed.

Lemma Forall_skeleton (Q : BrainNode -> Prop) l :
  (forall n, Q (erase n) <-> Q n) -> Forall Q (skeleton l) <-> Forall Q l.
Proof.
  intros HQ. unfold skeleton. rewrite Forall_map.
  split; apply Forall_impl; intros n; apply HQ.
Qed.

Lemma filter_all {A : Type} (p : A -> bool) l :
  Forall (fun a => p a = true) l -> filter p l = l.
Proof. induction 1 as [|a l Ha Hl IH]; cbn; [|rewrite Ha, IH]; trivial. Qed.

Lemma filter_none {A : Type} (p : A -> bool) l :
  Forall (fun a => p a = false) l -> filter p l = [].
Proof. induction 1 as [|a l Ha Hl IH]; cbn; [|rewrite Ha, IH]; trivial. Qed.

Section Hubs.

Variable random : nat -> R.
Variables width height : R.
Variable showLabels : bool.

Lemma placed_labels :
  map label (filter hasLabel (placed random width height showLabels)) =
  map (fun c => Some (c_label c)) (centralNodes showLabels).
Proof.
  destruct (placed_split random width height showLabels)
    as (hubs & small & -> & Hh & Hs).
  rewrite filter_app, map_app, (filter_all _ hubs), (filter_none _ small), app_nil_r.
  - assert (H : map label hubs =
                map (fun ci => Some (c_label (fst ci)))
                  (combine (centralNodes showLabels) (seq 0 5))).
    { apply Forall2_map_eq. eapply Forall2_weaken; [|exact Hh].
      intros ci n [k' ->]. apply placeCentral_fields. }
    rewrite H. now destruct showLabels.
  - eapply Forall2_Forall_r; [|exact Hs]. intros i n _ [k' ->].
    unfold hasLabel.
    now destruct (placeNode_fields random width height i k') as (_ & -> & _).
  - eapply Forall2_Forall_r; [|exact Hh]. intros ci n _ [k' ->].
    unfold hasLabel.
    now destruct (placeCentral_fields random width height (fst ci) (snd ci) k')
      as (_ & -> & _).
Qed.

Lemma placed_main_iff_label :
  Forall (fun n => isMain n = hasLabel n) (placed random width height showLabels).
Proof.
  destruct (placed_split random width height showLabels)
    as (hubs & small & -> & Hh & Hs).
  apply Forall_app; split.
  - eapply Forall2_Forall_r; [|exact Hh]. intros ci n Hin [k' ->].
    destruct (placeCentral_fields random width height (fst ci) (snd ci) k')
      as (_ & Hl & Ht).
    unfold isMain, hasLabel. rewrite Hl, Ht.
    destruct showLabels; cbn in Hin;
      repeat (destruct Hin as [<-|Hin]; [reflexivity|]); destruct Hin.
  - eapply Forall2_Forall_r; [|exact Hs]. intros i n _ [k' ->].
    destruct (placeNode_fields random width height i k') as (_ & Hl & Ht).
    unfold isMain, hasLabel. rewrite Hl.
    destruct (type (fst (placeNode random width height i k'))); cbn; congruence.
Qed.

End Hubs.

(** C5: whatever the canvas and the flag, a generated layout has exactly
    5 labeled nodes, they are its nodes of type [main] (the hubs), and
    their labels are the vocabulary the flag selects: Mobility, Funding,
    Startups, Technology, Europe when the flag is false. *)
Theorem hub_labels (random : nat -> R) (width height : R) (showLabels : bool) :
  let nodes := fst (generate random width height showLabels) in
  List.length (filter hasLabel nodes) = 5%nat /\
  Forall (fun n => isMain n = hasLabel n) nodes /\
  map label (filter hasLabel nodes) =
    map Some
      (if showLabels
       then ["Mobility"; "Funding"; "Electric Vehicles"; "Startups"; "Europe"]
       else ["Mobility"; "Funding"; "Startups"; "Technology"; "Europe"])%string.
Proof.
  cbn zeta.
  assert (HL : map label (filter hasLabel (fst (generate random width height showLabels))) =
               map (fun c => Some (c_label c)) (centralNodes showLabels)).
  { rewrite <- (filter_skeleton label hasLabel) by reflexivity.
    rewrite generate_skeleton, filter_skeleton by reflexivity.
    apply placed_labels. }
  repeat split.
  - rewrite <- (length_map label), HL, length_map. now destruct showLabels.
  - apply (Forall_skeleton (fun n => isMain n = hasLabel n)); [reflexivity|].
    rewrite generate_skeleton.
    apply (Forall_skeleton (fun n => isMain n = hasLabel n)); [reflexivity|].
    apply placed_main_iff_label.
  - rewrite HL. now destruct showLabels.
Qed.

(** ** The silhouette *)

Lemma sqrt_le_one v : v <= 1 -> sqrt v <= 1.
Proof.
  intros Hv. destruct (Rle_dec 0 v) as [H0|H0].
  - apply Rle_trans with (sqrt 1); [apply sqrt_le_1; lra|rewrite sqrt_1; lra].
  - rewrite sqrt_neg_0 by lra. lra.
Qed.

Lemma quotient_bound num q P :
  0 < q -> - (P * q) <= num <= P * q -> - P <= num / q <= P.
Proof.
  intros Hq [Hlo Hhi].
  assert (E : num / q * q = num) by (field; lra).
  split; apply Rmult_le_reg_r with q; trivial; rewrite E; lra.
Qed.

Lemma square_bound v P : - P <= v <= P -> v * v <= P * P.
Proof. intros [Hlo Hhi]. nra. Qed.

(** A point at most [r * min(w,h) * sz * 0.3] away from the centre
    (w*kx, h*ky) of a region is inside the ellipse, when the region sits
    well inside it. *)
Lemma region_inside width height kx ky sz ax ay c s r :
  0 < width -> 0 < height ->
  0 <= r <= 1 -> -1 <= c <= 1 -> -1 <= s <= 1 ->
  0 <= sz ->
  - ax <= kx - 0.5 <= ax -> - ay <= ky - 0.3 <= ay ->
  ((ax + sz * 0.3) / 0.32) * ((ax + sz * 0.3) / 0.32)
  + ((ay + sz * 0.3) / 0.25) * ((ay + sz * 0.3) / 0.25) <= 1 ->
  distanceFromCenter width height
    (width * kx + c * (r * Rmin width height * sz * 0.3))
    (height * ky + s * (r * Rmin width height * sz * 0.3)) <= 1.
Proof.
  intros Hw Hh Hr Hc Hs Hsz Hx Hy Hsum.
  pose proof (Rmin_l width height) as Hml.
  pose proof (Rmin_r width height) as Hmr.
  assert (Hm : 0 < Rmin width height) by (apply Rmin_glb_lt; trivial).
  set (m := Rmin width height) in *.
  assert (H1 : 0 <= r * m) by (apply Rmult_le_pos; lra).
  assert (H2 : r * m <= m).
  { rewrite <- (Rmult_1_l m) at 2. apply Rmult_le_compat_r; lra. }
  assert (H3 : 0 <= r * m * sz) by (apply Rmult_le_pos; lra).
  assert (H4 : r * m * sz <= m * sz) by (apply Rmult_le_compat_r; lra).
  assert (H5 : m * sz <= width * sz) by (apply Rmult_le_compat_r; lra).
  assert (H6 : m * sz <= height * sz) by (apply Rmult_le_compat_r; lra).
  set (p := r * m * sz) in *.
  assert (H7 : 0 <= p * 0.3) by lra.
  assert (Hcd : - (p * 0.3) <= c * (p * 0.3) <= p * 0.3).
  { split.
    - replace (- (p * 0.3)) with (-1 * (p * 0.3)) by ring.
      apply Rmult_le_compat_r; lra.
    - rewrite <- (Rmult_1_l (p * 0.3)) at 2. apply Rmult_le_compat_r; lra. }
  assert (Hsd : - (p * 0.3) <= s * (p * 0.3) <= p * 0.3).
  { split.
    - replace (- (p * 0.3)) with (-1 * (p * 0.3)) by ring.
      apply Rmult_le_compat_r; lra.
    - rewrite <- (Rmult_1_l (p * 0.3)) at 2. apply Rmult_le_compat_r; lra. }
  assert (Hxw : - (ax * width) <= width * kx - width * 0.5 <= ax * width).
  { replace (width * kx - width * 0.5) with ((kx - 0.5) * width) by ring.
    replace (- (ax * width)) with (- ax * width) by ring.
    split; apply Rmult_le_compat_r; lra. }
  assert (Hyh : - (ay * height) <= height * ky - height * 0.3 <= ay * height).
  { replace (height * ky - height * 0.3) with ((ky - 0.3) * height) by ring.
    replace (- (ay * height)) with (- ay * height) by ring.
    split; apply Rmult_le_compat_r; lra. }
  unfold distanceFromCenter. apply sqrt_le_one.
  eapply Rle_trans; [|exact Hsum].
  apply Rplus_le_compat; apply square_bound.
  - unfold normalizedX. apply quotient_bound; [lra|].
    replace ((ax + sz * 0.3) / 0.32 * (width * 0.32))
      with (ax * width + width * sz * 0.3) by (field; lra).
    lra.
  - unfold normalizedY. apply quotient_bound; [lra|].
    replace ((ay + sz * 0.3) / 0.25 * (height * 0.25))
      with (ay * height + height * sz * 0.3) by (field; lra).
    lra.
Qed.

Lemma clampToBrain_inside width height px py :
  0 < width -> 0 < height ->
  distanceFromCenter width height
    (fst (clampToBrain width height px py))
    (snd (clampToBrain width height px py)) <= 1.
Proof.
  intros Hw Hh. unfold clampToBrain.
  set (d := distanceFromCenter width height px py).
  destruct (Rlt_dec 1 d) as [Hd|Hd]; cbn [fst snd]; [|fold d; lra].
  set (nx := normalizedX width px). set (ny := normalizedY height py).
  assert (Hdd : d * d = nx * nx + ny * ny).
  { unfold d, distanceFromCenter. fold nx ny. apply sqrt_sqrt. nra. }
  unfold distanceFromCenter. apply sqrt_le_one.
  replace (normalizedX width (width * 0.5 + nx / d * (width * 0.32) * 0.95))
    with (nx / d * 0.95) by (unfold normalizedX; field; lra).
  replace (normalizedY height (height * 0.3 + ny / d * (height * 0.25) * 0.95))
    with (ny / d * 0.95) by (unfold normalizedY; field; lra).
  replace (nx / d * 0.95 * (nx / d * 0.95) + ny / d * 0.95 * (ny / d * 0.95))
    with ((nx * nx + ny * ny) / (d * d) * (0.95 * 0.95)) by (field; lra).
  rewrite <- Hdd. replace (d * d / (d * d)) with 1 by (field; lra). lra.
Qed.

Section Silhouette.

Variable random : nat -> R.
Variables width height : R.
Hypothesis width_pos : 0 < width.
Hypothesis height_pos : 0 < height.
(** [Math.random()] answers in [0,1). *)
Hypothesis random_range : forall k, 0 <= random k < 1.

Lemma placeCentral_inside c i k :
  (i < 5)%nat ->
  inside width height (fst (placeCentral random width height c i k)).
Proof.
  intros Hi. unfold inside, placeCentral. cbv [bind Math_random ret fst].
  cbn [x y].
  pose proof (random_range (S k)) as Hr.
  pose proof (COS_bound (random k * 2 * PI)) as Hc.
  pose proof (SIN_bound (random k * 2 * PI)) as Hs.
  destruct i as [|[|[|[|[|i]]]]]; [| | | | |lia].
  - change (regionAt width height (0 mod List.length (brainRegions width height)))
      with (mkRegion (width * 0.35) (height * 0.3) 0.22).
    cbn [centerX centerY size].
    apply (region_inside _ _ 0.35 0.3 0.22 0.15 0); lra.
  - change (regionAt width height (1 mod List.length (brainRegions width height)))
      with (mkRegion (width * 0.65) (height * 0.3) 0.22).
    cbn [centerX centerY size].
    apply (region_inside _ _ 0.65 0.3 0.22 0.15 0); lra.
  - change (regionAt width height (2 mod List.length (brainRegions width height)))
      with (mkRegion (width * 0.5) (height * 0.25) 0.18).
    cbn [centerX centerY size].
    apply (region_inside _ _ 0.5 0.25 0.18 0 0.05); lra.
  - change (regionAt width height (3 mod List.length (brainRegions width height)))
      with (mkRegion (width * 0.5) (height * 0.4) 0.16).
    cbn [centerX centerY size].
    apply (region_inside _ _ 0.5 0.4 0.16 0 0.1); lra.
  - change (regionAt width height (4 mod List.length (brainRegions width height)))
      with (mkRegion (width * 0.4) (height * 0.2) 0.14).
    cbn [centerX centerY size].
    apply (region_inside _ _ 0.4 0.2 0.14 0.1 0.1); lra.
Qed.

Lemma placeNode_inside i k :
  inside width height (fst (placeNode random width height i k)).
Proof.
  unfold inside, placeNode. rewrite bind_eq.
  cbv [bind Math_random ret]. cbn [fst snd x y].
  now apply clampToBrain_inside.
Qed.

Lemma placed_inside showLabels :
  Forall (inside width height) (placed random width height showLabels).
Proof.
  destruct (placed_split random width height showLabels)
    as (hubs & small & -> & Hh & Hs).
  apply Forall_app; split.
  - eapply Forall2_Forall_r; [|exact Hh]. intros ci n Hin [k' ->].
    apply placeCentral_inside.
    destruct ci as [c i]. apply in_combine_r, in_seq in Hin. cbn [snd]. lia.
  - eapply Forall2_Forall_r; [|exact Hs]. intros i n _ [k' ->].
    apply placeNode_inside.
Qed.

End Silhouette.

(** C3: on a canvas of positive width and height, every node of a
    generated layout, hub or not, lies within the ellipse of centre
    (0.5 width, 0.3 height) and radii (0.32 width, 0.25 height): its
    distance normalized to the ellipse is at most 1. *)
Theorem nodes_inside_silhouette (random : nat -> R) (width height : R)
    (showLabels : bool) :
  0 < width -> 0 < height ->
  (forall k, 0 <= random k < 1) ->
  Forall (inside width height) (fst (generate random width height showLabels)).
Proof.
  intros Hw Hh Hr.
  apply (Forall_skeleton (inside width height)); [reflexivity|].
  rewrite generate_skeleton.
  apply (Forall_skeleton (inside width height)); [reflexivity|].
  now apply placed_inside.
Qed.

Lemma nodes_inside_silhouette_witness :
  0 < 800 /\ 0 < 600 /\ (forall k : nat, 0 <= (fun _ : nat => 0) k < 1) /\
  Forall (inside 800 600) (fst (generate (fun _ => 0) 800 600 false)).
Proof.
  assert (Hr : forall k : nat, 0 <= (fun _ : nat => 0) k < 1) by (intros; lra).
  split; [lra|]. split; [lra|]. split; [exact Hr|].
  apply (nodes_inside_silhouette (fun _ => 0) 800 600 false); [lra|lra|exact Hr].
Defined.

(** ** The search flow *)

(** C7: when the call of a search submission fails (it rejects, or the
    response is not a success), nothing escapes the function, exactly one
    entry is logged to the console, as an error, and the component state
    afterwards is the state before with the loading flag cleared: no
    field holds a message for the user, and the result view (visibility
    flag, knowledge graph, startups, zoom target) is unchanged, so the
    results panel is shown afterwards exactly when it was shown before:
    a hidden panel stays hidden. *)
Theorem search_failure_keeps_view (amb : Ambient) (query : string) (s : HomeState) :
  searchFails amb query ->
  let res := searchWithOllama amb query s in
  fst res = Normal /\
  (exists msg, console (snd res) = [console_error msg]) /\
  state (snd res) = setIsLoading false s /\
  isLoading (state (snd res)) = false /\
  showResults (state (snd res)) = showResults s /\
  knowledgeGraph (state (snd res)) = knowledgeGraph s /\
  csvStartups (state (snd res)) = csvStartups s /\
  zoomTarget (state (snd res)) = zoomTarget s /\
  resultsPanelShown (state (snd res)) = resultsPanelShown s.
Proof.
  intros Hfail. unfold searchWithOllama, searchBody.
  destruct Hfail as [E|[j E]]; rewrite E; cbn;
    (split; [reflexivity|]); (split; [eexists; reflexivity|]); auto 10.
Qed.

Lemma search_failure_keeps_view_witness :
  searchFails offline "mobility" /\
  fst (searchWithOllama offline "mobility" landing) = Normal /\
  state (snd (searchWithOllama offline "mobility" landing)) =
    setIsLoading false landing /\
  resultsPanelShown (state (snd (searchWithOllama offline "mobility" landing))) =
    false.
Proof.
  assert (H : searchFails offline "mobility") by (left; reflexivity).
  pose proof (search_failure_keeps_view offline "mobility" landing H) as P.
  cbv zeta in P.
  destruct P as (P1 & _ & P3 & _ & _ & _ & _ & _ & P9).
  split; [exact H|]. split; [exact P1|]. split; [exact P3|].
  rewrite P9. reflexivity.
Defined.

(** C8, on the code: the one request of a search submission is a POST
    with the body [{query}], but its address is the literal
    http://localhost:8001/api/search whatever the environment says: with
    REACT_APP_API_URL set to https://backend.example the request does not
    go to https://backend.example/api/search. *)
Theorem search_request_ignores_environment :
  env deployed "REACT_APP_API_URL" = Some "https://backend.example"%string /\
  sent (snd (searchWithOllama deployed "mobility" landing)) =
    [mkRequest "http://localhost:8001/api/search" "POST"
       [("Content-Type", "application/json")%string]
       (JObj [("query"%string, JStr "mobility")])] /\
  map url (sent (snd (searchWithOllama deployed "mobility" landing))) <>
    [("https://backend.example" ++ "/api/search")%string] /\
  (forall amb query s,
      exists rest,
        sent (snd (searchWithOllama amb query s)) = searchRequest query :: rest /\
        url (searchRequest query) = "http://localhost:8001/api/search"%string).
Proof.
  split; [reflexivity|]. split; [reflexivity|]. split; [cbn; discriminate|].
  intros amb query s. unfold searchWithOllama, searchBody.
  destruct (fetch amb (searchRequest query)) as [|[|] [data|]]; cbn.
  - eexists; split; reflexivity.
  - destruct (getProperty data "knowledge_graph") as [g|]; cbn.
    + destruct (includes (toLowerCase (searchQuery s)) "energy"
                || includes (toLowerCase (searchQuery s)) "energia"); cbn.
      * unfold csvLookup.
        destruct (fetch amb sectorRequest) as [|[|] [csv|]]; cbn;
          try (eexists; split; reflexivity).
        destruct (getProperty csv "startups"); cbn; eexists; split; reflexivity.
      * eexists; split; reflexivity.
    + eexists; split; reflexivity.
  - eexists; split; reflexivity.
  - eexists; split; reflexivity.
  - eexists; split; reflexivity.
Qed.

(** ** Candidates: the nearest others, in ascending order *)

Lemma mapi_from_nth_error {A B : Type} (f : A -> nat -> B) l : forall k i a,
  nth_error l i = Some a -> In (f a (k + i)%nat) (mapi_from f k l).
Proof.
  induction l as [|b l IH]; intros k [|i] a H; cbn in *; try discriminate.
  - inversion H; subst. left. f_equal. lia.
  - right. replace (k + S i)%nat with (S k + i)%nat by lia. now apply IH.
Qed.

Lemma others_length {B : Type} (f : B -> nat -> Nearby) i l : forall k,
  (forall b j, index (f b j) = j) ->
  List.length (filter (fun item => negb (index item =? i)%nat) (mapi_from f k l)) =
  (List.length l - (if ((k <=? i) && (i <? k + List.length l))%nat then 1 else 0))%nat.
Proof.
  intros k Hf. revert k.
  induction l as [|b l IH]; intros k; cbn [mapi_from filter List.length].
  - now destruct ((k <=? i) && (i <? k + 0))%nat.
  - rewrite Hf. destruct (Nat.eqb_spec k i) as [->|Hki]; cbn [negb List.length].
    + rewrite IH.
      replace ((S i <=? i) && (i <? S i + List.length l))%nat with false
        by (symmetry; apply andb_false_intro1, Nat.leb_gt; lia).
      replace ((i <=? i) && (i <? i + S (List.length l)))%nat with true
        by (symmetry; apply andb_true_intro; split;
            [apply Nat.leb_le|apply Nat.ltb_lt]; lia).
      lia.
    + rewrite IH.
      replace ((S k <=? i) && (i <? S k + List.length l))%nat
        with ((k <=? i) && (i <? k + S (List.length l)))%nat.
      * destruct ((k <=? i) && (i <? k + S (List.length l)))%nat eqn:E; [|lia].
        apply andb_prop in E. destruct E as [E1 E2].
        apply Nat.leb_le in E1. apply Nat.ltb_lt in E2. lia.
      * apply eq_true_iff_eq. rewrite !andb_true_iff, !Nat.leb_le, !Nat.ltb_lt. lia.
Qed.

Lemma nearbyNodes_length nodes n i cc :
  (i < List.length nodes)%nat ->
  List.length (nearbyNodes nodes n i cc) =
  Nat.min (Z.to_nat (cc * 2)) (List.length nodes - 1).
Proof.
  intros Hi. unfold nearbyNodes.
  rewrite length_firstn, sortNearby_length, others_length by reflexivity.
  replace ((0 <=? i) && (i <? 0 + List.length nodes))%nat with true; [reflexivity|].
  symmetry. apply andb_true_intro. split; [apply Nat.leb_le|apply Nat.ltb_lt]; lia.
Qed.

Lemma firstn_ascending k l : ascending l -> ascending (firstn k l).
Proof.
  intros Hl i j a b Hij Ha Hb. rewrite nth_error_firstn in Ha, Hb.
  destruct (i <? k)%nat; [|discriminate]. destruct (j <? k)%nat; [|discriminate].
  eapply Hl; eauto.
Qed.

Lemma nearbyNodes_ascending nodes n i cc : ascending (nearbyNodes nodes n i cc).
Proof. apply firstn_ascending, sortNearby_ascending. Qed.

(** A node that is not among the candidates is at least as far as each
    of them. *)
Lemma nearbyNodes_nearest nodes n i cc k t item :
  k <> i -> nth_error nodes k = Some t ->
  (forall c, In c (nearbyNodes nodes n i cc) -> index c <> k) ->
  In item (nearbyNodes nodes n i cc) ->
  distance item <= dist n t.
Proof.
  unfold nearbyNodes. intros Hk Ht Hout Hin.
  set (full := sortNearby _) in *.
  set (K := Z.to_nat (cc * 2)) in *.
  assert (Hfull : In (mkNearby t k (dist n t)) full).
  { apply sortNearby_In, filter_In. split.
    - apply (mapi_from_nth_error
               (fun tgt j => mkNearby tgt j (dist n tgt)) nodes 0%nat k t Ht).
    - cbn. apply negb_true_iff, Nat.eqb_neq. exact Hk. }
  rewrite <- (firstn_skipn K full) in Hfull. apply in_app_or in Hfull.
  destruct Hfull as [Hfull|Hfull]; [now apply Hout in Hfull|].
  apply In_nth_error in Hfull. destruct Hfull as [p Hp].
  rewrite nth_error_skipn in Hp.
  apply In_nth_error in Hin. destruct Hin as [q Hq].
  rewrite nth_error_firstn in Hq.
  destruct (Nat.ltb_spec q K) as [HqK|]; [|discriminate].
  change (dist n t) with (distance (mkNearby t k (dist n t))).
  assert (Hasc : ascending full) by apply sortNearby_ascending.
  apply (Hasc q (K + p)%nat); trivial. lia.
Qed.

(** ** Target counts and thresholds *)

Lemma connectionCount_range (random : nat -> R) t k :
  0 <= random k < 1 ->
  let cc := fst (connectionCount random t k) in
  match t with
  | main => (6 <= cc <= 13)%Z
  | _ => (3 <= cc <= 7)%Z
  end.
Proof.
  intros Hr. cbv [connectionCount bind Math_random ret fst].
  destruct t; apply Zfloor_range; lra.
Qed.

Lemma probability_antitone t cc j j' :
  (j <= j')%nat -> probability t j' cc <= probability t j cc.
Proof.
  intros Hj. apply le_INR in Hj. unfold probability. destruct t; [lra| |];
    destruct (Rlt_dec (INR j') (IZR cc * 0.6)), (Rlt_dec (INR j) (IZR cc * 0.6)); lra.
Qed.

Lemma probability_main_highest t cc j j' :
  probability t j cc <= probability main j' cc /\
  (t <> main -> probability t j cc < probability main j' cc).
Proof.
  unfold probability. destruct t; (split; [|intros Ht]); try congruence; try lra;
    destruct (Rlt_dec (INR j) (IZR cc * 0.6)); lra.
Qed.

Lemma accepted_length width height n cc nearby j r :
  (List.length (accepted width height n cc nearby j r) <= 1)%nat.
Proof.
  unfold accepted. destruct (nth_error nearby j); [|cbn; lia].
  destruct (Rlt_dec _ _); [|cbn; lia].
  destruct (Rlt_dec _ _); cbn; lia.
Qed.

Lemma flat_map_length_le {A B : Type} (f : A -> list B) l :
  (forall a, (List.length (f a) <= 1)%nat) ->
  (List.length (flat_map f l) <= List.length l)%nat.
Proof.
  intros Hf. induction l as [|a l IH]; cbn; [lia|].
  rewrite length_app. specialize (Hf a). lia.
Qed.

(** ** A layout with an edge

    The statements over all the edges of a layout are not about empty
    lists only: with every draw 0, on a canvas of 800 by 600, the hub
    "mobility" records an edge to its nearest neighbour. *)

Lemma nearbyNodes_head_min nodes n i cc c m t :
  nth_error (nearbyNodes nodes n i cc) 0 = Some c ->
  m <> i -> nth_error nodes m = Some t ->
  distance c <= dist n t.
Proof.
  unfold nearbyNodes. intros Hc Hm Ht.
  set (full := sortNearby _) in *.
  rewrite nth_error_firstn in Hc.
  destruct (0 <? Z.to_nat (cc * 2))%nat; [|discriminate].
  assert (Hfull : In (mkNearby t m (dist n t)) full).
  { apply sortNearby_In, filter_In. split.
    - apply (mapi_from_nth_error
               (fun tgt j => mkNearby tgt j (dist n tgt)) nodes 0%nat m t Ht).
    - cbn. apply negb_true_iff, Nat.eqb_neq. exact Hm. }
  apply In_nth_error in Hfull. destruct Hfull as [p Hp].
  assert (Hasc : ascending full) by apply sortNearby_ascending.
  change (dist n t) with (distance (mkNearby t m (dist n t))).
  apply (Hasc 0%nat p); trivial. lia.
Qed.

Lemma connectNode_keeps random width height i net k e :
  In e (snd net) -> In e (snd (fst (connectNode random width height i net k))).
Proof.
  intros He. destruct (nth_error (fst net) i) as [n|] eqn:Hn.
  - destruct (connectNode_spec random width height i net k n Hn) as [_ H].
    cbv zeta in H. rewrite H. apply in_or_app. now left.
  - now rewrite connectNode_none.
Qed.

Lemma connectNodes_keeps random width height idxs : forall net k e,
  In e (snd net) -> In e (snd (fst (connectNodes random width height idxs net k))).
Proof.
  induction idxs as [|i idxs IH]; intros net k e He; [exact He|].
  cbn [connectNodes]. rewrite bind_eq. apply IH. now apply connectNode_keeps.
Qed.

Lemma zero_hub_position c k :
  let n := fst (placeCentral (fun _ => 0) 800 600 c 0 k) in
  x n = 280 /\ y n = 180 /\ id n = c_id c /\ type n = c_type c.
Proof.
  cbv [placeCentral bind Math_random ret fst].
  change (regionAt 800 600 (0 mod List.length (brainRegions 800 600)))
    with (mkRegion (800 * 0.35) (600 * 0.3) 0.22).
  cbn [x y id type centerX centerY size].
  split; [lra|]. split; [lra|]. split; reflexivity.
Qed.

Lemma zero_region : randomRegion (fun _ => 0) 800 600 =
  fun k => (mkRegion (800 * 0.35) (600 * 0.3) 0.22, S k).
Proof.
  unfold randomRegion, bind, Math_random, ret.
  replace (Zfloor (0 * INR (List.length (brainRegions 800 600)))) with 0%Z;
    [reflexivity|].
  symmetry. apply Zfloor_eq. rewrite Rmult_0_l. lra.
Qed.

Lemma zero_node_position i k :
  let n := fst (placeNode (fun _ => 0) 800 600 i k) in
  x n = 240 /\ y n = 140.
Proof.
  unfold placeNode, rawPosition. rewrite !bind_eq.
  cbv [Math_random fst snd].
  destruct (Rlt_dec 0.3 0) as [H|_]; [lra|].
  rewrite !bind_eq, zero_region. cbv [bind Math_random ret fst snd].
  cbn [centerX centerY x y].
  set (px := 800 * 0.35 + 0 * (800 * 0.35 - 800 * 0.35) + (0 - 0.5) * 80).
  set (py := 600 * 0.3 + 0 * (600 * 0.3 - 600 * 0.3) + (0 - 0.5) * 80).
  assert (Hpx : px = 240) by (unfold px; lra).
  assert (Hpy : py = 140) by (unfold py; lra).
  unfold clampToBrain.
  destruct (Rlt_dec 1 (distanceFromCenter 800 600 px py)) as [H|_];
    [|cbn [fst snd]; auto].
  exfalso. apply (Rlt_irrefl 1). eapply Rlt_le_trans; [exact H|].
  unfold distanceFromCenter, normalizedX, normalizedY. rewrite Hpx, Hpy.
  apply sqrt_le_one. lra.
Qed.

Lemma generate_records_an_edge :
  exists e,
    In e (snd (generate (fun _ => 0) 800 600 false)) /\
    source e = "mobility"%string.
Proof.
  pose proof (placed_length (fun _ => 0) 800 600 false) as Hlen.
  rewrite nodeCount_800_600 in Hlen.
  destruct (placed_split (fun _ => 0) 800 600 false)
    as (hubs & small & Hsplit & Hh & Hs).
  rewrite nodeCount_800_600 in Hs.
  pose proof (Forall2_length Hh) as Lh. cbn in Lh.
  change (combine (centralNodes false) (seq 0 5))
    with ((mkCentral "mobility" "Mobility" main, 0%nat)
            :: combine (tl (centralNodes false)) (seq 1 4)) in Hh.
  inversion Hh as [|ci n cis hubs' [k1 Hn] Hrest Eci Ehubs].
  cbn [fst snd] in Hn. clear Hh Eci Hrest.
  change (seq 5 (Z.to_nat 120 - 5)) with (5%nat :: seq 6 114) in Hs.
  inversion Hs as [|i5 t is5 small' [k2 Ht] Hrest Ei Esmall].
  clear Hs Ei Hrest.
  destruct (zero_hub_position (mkCentral "mobility" "Mobility" main) k1)
    as (Hx & Hy & Hid & Hty).
  cbv zeta in Hx, Hy, Hid, Hty. rewrite <- Hn in Hx, Hy, Hid, Hty.
  destruct (zero_node_position 5 k2) as (Tx & Ty).
  cbv zeta in Tx, Ty. rewrite <- Ht in Tx, Ty.
  cbn [c_id c_type] in Hid, Hty. clear Hn Ht.
  assert (Hn0 : nth_error (placed (fun _ => 0) 800 600 false) 0 = Some n).
  { rewrite Hsplit, <- Ehubs. reflexivity. }
  assert (Ht5 : nth_error (placed (fun _ => 0) 800 600 false) 5 = Some t).
  { rewrite Hsplit, nth_error_app2 by lia. rewrite <- Lh, <- Esmall. reflexivity. }
  set (k := snd (placement (fun _ => 0) 800 600 false 0%nat)).
  assert (Hcc : fst (connectionCount (fun _ => 0) (type n) k) = 6%Z).
  { rewrite Hty. cbv [connectionCount bind Math_random ret fst].
    apply Zfloor_eq. lra. }
  set (nearby := nearbyNodes (placed (fun _ => 0) 800 600 false) n 0 6).
  assert (HL : List.length nearby = 12%nat).
  { unfold nearby. rewrite nearbyNodes_length by (rewrite Hlen; lia).
    rewrite Hlen. reflexivity. }
  destruct (nth_error nearby 0) as [c|] eqn:Hc;
    [|apply nth_error_None in Hc; lia].
  assert (Hd : distance c < maxDistance 800 600 (type n)).
  { eapply Rle_lt_trans.
    - apply (nearbyNodes_head_min _ _ _ _ _ 5%nat t Hc); [lia|exact Ht5].
    - rewrite Hty. unfold dist, maxDistance. rewrite Hx, Hy, Tx, Ty.
      unfold Rmin. destruct (Rle_dec 800 600); [lra|].
      replace (600 * 0.4) with (sqrt (240 * 240)) by (rewrite sqrt_square; lra).
      apply sqrt_lt_1; lra. }
  exists (mkConnection (id n) (id (node c))
            (Rmax 0.2 (1 - distance c / maxDistance 800 600 (type n)))).
  split; [|exact Hid].
  rewrite generate_placed. rewrite Hlen.
  change (seq 0 (Z.to_nat 120)) with (0%nat :: seq 1 119).
  cbn [connectNodes]. rewrite bind_eq. apply connectNodes_keeps.
  destruct (connectNode_spec (fun _ => 0) 800 600 0
              (placed (fun _ => 0) 800 600 false, []) k n Hn0) as [_ He].
  cbv zeta in He. cbn [fst snd] in He. rewrite Hcc in He. fold nearby in He.
  fold k. rewrite He, app_nil_l.
  assert (HT : trials 6 nearby = 6%nat) by (unfold trials; rewrite HL; reflexivity).
  rewrite HT. cbn [seq flat_map]. apply in_or_app. left.
  unfold accepted. rewrite Hc.
  destruct (Rlt_dec 0 (probability (type n) 0 6)) as [_|Hp].
  - destruct (Rlt_dec (distance c) (maxDistance 800 600 (type n))); [|contradiction].
    now left.
  - exfalso. apply Hp. rewrite Hty. cbn. lra.
Qed.

(** * Further properties of the generator *)

(** ** Neighbour lists *)

Lemma targetsOf_app sid l l' :
  targetsOf sid (l ++ l') = targetsOf sid l ++ targetsOf sid l'.
Proof. unfold targetsOf. now rewrite filter_app, map_app. Qed.

Lemma updateAt_consistent edges e : forall nodes i n,
  NoDup (map id nodes) ->
  nth_error nodes i = Some n -> source e = id n ->
  Forall (fun m => connections m = targetsOf (id m) edges) nodes ->
  Forall (fun m => connections m = targetsOf (id m) (edges ++ [e]))
    (updateAt i (pushConnection (target e)) nodes).
Proof.
  assert (Hother : forall m n, id m <> id n -> source e = id n ->
            targetsOf (id m) (edges ++ [e]) = targetsOf (id m) edges).
  { intros m n Hmn Hsrc. rewrite targetsOf_app. unfold targetsOf at 2.
    cbn [filter]. rewrite Hsrc.
    destruct (String.eqb_spec (id n) (id m)) as [E|_]; [congruence|].
    cbn. apply app_nil_r. }
  induction nodes as [|a nodes IH]; intros i n Hnd Hn Hsrc HF;
    [destruct i; constructor|].
  cbn [map] in Hnd. apply NoDup_cons_iff in Hnd. destruct Hnd as [Ha Hnd].
  apply Forall_cons_iff in HF. destruct HF as [Hca HF].
  destruct i as [|i]; cbn [updateAt nth_error] in *.
  - inversion Hn; subst a. constructor.
    + cbn [connections id pushConnection]. rewrite targetsOf_app, Hca.
      f_equal. unfold targetsOf. cbn [filter]. rewrite Hsrc, String.eqb_refl.
      reflexivity.
    + eapply Forall_impl; [|rewrite Forall_forall; intros m Hm;
                            exact (conj Hm (proj1 (Forall_forall _ _) HF m Hm))].
      intros m [Hm Hc]. rewrite Hc. symmetry. apply (Hother m n); trivial.
      intros E. apply Ha. rewrite <- E. now apply in_map.
  - constructor.
    + rewrite Hca. symmetry. apply (Hother a n); trivial.
      intros E. apply Ha. rewrite E. apply in_map. eapply nth_error_In; eauto.
    + eapply IH; eauto.
Qed.

Section NeighbourLists.

Variable random : nat -> R.
Variables width height : R.

Lemma tryConnect_consistent n i cc nearby j net k :
  NoDup (map id (fst net)) ->
  (exists n', nth_error (fst net) i = Some n' /\ id n' = id n) ->
  consistent net ->
  consistent (fst (tryConnect random width height n i cc nearby j net k)).
Proof.
  intros Hnd (n' & Hn' & Hid) Hc. unfold tryConnect.
  destruct (nth_error nearby j) as [t|]; [|exact Hc].
  cbv [bind Math_random ret].
  destruct (Rlt_dec (random k) (probability (type n) j cc)); [|exact Hc].
  destruct (Rlt_dec (distance t) (maxDistance width height (type n))); [|exact Hc].
  cbn [fst snd]. unfold consistent. cbn [fst snd].
  apply (updateAt_consistent (snd net)
           (mkConnection (id n) (id (node t))
              (Rmax 0.2 (1 - distance t / maxDistance width height (type n))))
           (fst net) i n'); auto.
Qed.

Lemma tryConnects_consistent n i cc nearby js : forall net k,
  NoDup (map id (fst net)) ->
  (exists n', nth_error (fst net) i = Some n' /\ id n' = id n) ->
  consistent net ->
  consistent (fst (tryConnects random width height n i cc nearby js net k)).
Proof.
  induction js as [|j js IH]; intros net k Hnd Hn Hc; [exact Hc|].
  cbn [tryConnects]. rewrite bind_eq.
  set (res := tryConnect random width height n i cc nearby j net k).
  assert (Hsk : skeleton (fst (fst res)) = skeleton (fst net)).
  { unfold res, tryConnect. destruct (nth_error nearby j); [|reflexivity].
    cbv [bind Math_random ret].
    destruct (Rlt_dec _ _); [|reflexivity].
    destruct (Rlt_dec _ _); [|reflexivity].
    cbn [fst]. apply skeleton_updateAt. }
  apply IH.
  - rewrite <- (skeleton_map id) by reflexivity. rewrite Hsk.
    rewrite skeleton_map by reflexivity. exact Hnd.
  - destruct Hn as (n' & Hn' & Hid).
    apply skeleton_nth_error in Hn'. rewrite <- Hsk in Hn'.
    apply nth_error_skeleton in Hn'. destruct Hn' as (n2 & Hn2 & E).
    exists n2. split; [exact Hn2|].
    rewrite <- Hid. change (id n2) with (id (erase n2)). now rewrite E.
  - now apply tryConnect_consistent.
Qed.

Lemma connectNode_consistent i net k :
  NoDup (map id (fst net)) -> consistent net ->
  consistent (fst (connectNode random width height i net k)).
Proof.
  intros Hnd Hc. unfold connectNode.
  destruct (nth_error (fst net) i) as [n|] eqn:Hn; [|exact Hc].
  rewrite bind_eq. apply tryConnects_consistent; eauto.
Qed.

Lemma connectNodes_consistent idxs : forall net k,
  NoDup (map id (fst net)) -> consistent net ->
  consistent (fst (connectNodes random width height idxs net k)).
Proof.
  induction idxs as [|i idxs IH]; intros net k Hnd Hc; [exact Hc|].
  cbn [connectNodes]. rewrite bind_eq. apply IH.
  - destruct (connectNodes_inv random width height (fun _ => True)
                (skeleton (fst net)) (fun _ _ _ _ _ _ _ _ _ _ => I)
                [i] net k eq_refl) as [Hsk _].
    { apply Forall_forall. auto. }
    cbn [connectNodes] in Hsk. rewrite bind_eq in Hsk. cbn [ret fst] in Hsk.
    rewrite <- (skeleton_map id) by reflexivity. rewrite Hsk.
    rewrite skeleton_map by reflexivity. exact Hnd.
  - now apply connectNode_consistent.
Qed.

Lemma placed_no_connections showLabels :
  Forall (fun n => connections n = []) (placed random width height showLabels).
Proof.
  destruct (placed_split random width height showLabels)
    as (hubs & small & -> & Hh & Hs).
  apply Forall_app; split.
  - eapply Forall2_Forall_r; [|exact Hh]. intros ci n _ [k' ->]. reflexivity.
  - eapply Forall2_Forall_r; [|exact Hs]. intros i n _ [k' ->].
    unfold placeNode. rewrite bind_eq. reflexivity.
Qed.

End NeighbourLists.

(** X1: in a generated layout the neighbour list of every node is the
    list of the targets of the edges that leave it, in the order they
    were recorded. *)
Theorem connections_match_edges (random : nat -> R) (width height : R)
    (showLabels : bool) :
  Forall (fun n =>
            connections n =
            targetsOf (id n) (snd (generate random width height showLabels)))
    (fst (generate random width height showLabels)).
Proof.
  rewrite generate_placed.
  apply (connectNodes_consistent random width height).
  - apply placed_ids_NoDup.
  - unfold consistent. cbn [fst snd].
    eapply Forall_impl; [|apply placed_no_connections].
    intros n ->. reflexivity.
Qed.

(** ** How many edges *)



Section EdgeCount.

Variable random : nat -> R.
Variables width height : R.
Hypothesis random_range : forall m, 0 <= random m < 1.



End EdgeCount.



(** ** Radii *)

(** X3: with draws in [0,1), every hub of a generated layout has a
    radius between 12 and 15 and every other node a radius between 0.8
    and 2.8, ends included (in the program's arithmetic a sum can round
    up to the end of its interval): radii are positive and a hub is
    always drawn larger than a small node. *)
Theorem node_radii (random : nat -> R) (width height : R) (showLabels : bool) :
  (forall m, 0 <= random m < 1) ->
  Forall radiusInRange (fst (generate random width height showLabels)) /\
  Forall (fun n => 0 < radius n) (fst (generate random width height showLabels)) /\
  (forall a b,
      In a (fst (generate random width height showLabels)) ->
      In b (fst (generate random width height showLabels)) ->
      type a = main -> type b <> main -> radius b < radius a).
Proof.
  intros Hr.
  assert (H : Forall radiusInRange (fst (generate random width height showLabels))).
  { apply (Forall_skeleton radiusInRange); [reflexivity|].
    rewrite generate_skeleton.
    apply (Forall_skeleton radiusInRange); [reflexivity|].
    destruct (placed_split random width height showLabels)
      as (hubs & small & -> & Hh & Hs).
    apply Forall_app; split.
    - eapply Forall2_Forall_r; [|exact Hh]. intros ci n Hin [k' ->].
      unfold radiusInRange.
      destruct (placeCentral_fields random width height (fst ci) (snd ci) k')
        as (_ & _ & ->).
      assert (Hm : c_type (fst ci) = main).
      { destruct showLabels; cbn in Hin;
          repeat (destruct Hin as [<-|Hin]; [reflexivity|]); destruct Hin. }
      rewrite Hm. cbv [placeCentral bind Math_random ret fst]. cbn [radius].
      pose proof (Hr (S (S k'))). lra.
    - eapply Forall2_Forall_r; [|exact Hs]. intros i n _ [k' ->].
      unfold radiusInRange.
      destruct (placeNode_fields random width height i k') as (_ & _ & Ht).
      assert (Hrad : 0.8 <= radius (fst (placeNode random width height i k')) <= 2.8).
      { unfold placeNode. rewrite bind_eq. cbv [bind Math_random ret fst].
        cbn [radius].
        pose proof (Hr (snd (rawPosition random width height k'))). lra. }
      destruct (type (fst (placeNode random width height i k'))); congruence. }
  split; [exact H|]. rewrite Forall_forall in H. split.
  - apply Forall_forall. intros n Hn. specialize (H n Hn).
    unfold radiusInRange in H. destruct (type n); lra.
  - intros a b Ha Hb Hta Htb.
    pose proof (H a Ha) as Ra. pose proof (H b Hb) as Rb.
    unfold radiusInRange in Ra, Rb. rewrite Hta in Ra.
    destruct (type b); [congruence| |]; lra.
Qed.

Lemma node_radii_witness :
  (forall m : nat, 0 <= (fun _ : nat => 0) m < 1) /\
  Forall radiusInRange (fst (generate (fun _ => 0) 800 600 false)).
Proof.
  assert (Hr : forall m : nat, 0 <= (fun _ : nat => 0) m < 1) by (intros; lra).
  split; [exact Hr|].
  exact (proj1 (node_radii (fun _ => 0) 800 600 false Hr)).
Defined.

(** ** No edge twice *)

Lemma insertNearby_perm a l : Permutation (insertNearby a l) (a :: l).
Proof.
  induction l as [|b l IH]; cbn [insertNearby]; [reflexivity|].
  destruct (Rle_dec (distance a) (distance b)); [reflexivity|].
  rewrite IH. apply perm_swap.
Qed.

Lemma sortNearby_perm l : Permutation (sortNearby l) l.
Proof.
  induction l as [|a l IH]; cbn [sortNearby fold_right]; [reflexivity|].
  fold (sortNearby l). rewrite insertNearby_perm. now constructor.
Qed.

Lemma NoDup_map_filter {A B : Type} (g : A -> B) (p : A -> bool) l :
  NoDup (map g l) -> NoDup (map g (filter p l)).
Proof.
  induction l as [|a l IH]; cbn [map filter]; intros H; [exact H|].
  apply NoDup_cons_iff in H. destruct H as [Ha H].
  destruct (p a); cbn [map]; [|auto].
  constructor; [|auto].
  intros Hin. apply Ha. apply in_map_iff in Hin.
  destruct Hin as (b & Hb & Hin). apply filter_In in Hin.
  apply in_map_iff. exists b. tauto.
Qed.

Lemma NoDup_firstn {A : Type} k (l : list A) : NoDup l -> NoDup (firstn k l).
Proof.
  intros H. rewrite <- (firstn_skipn k l) in H.
  now apply NoDup_app_remove_r in H.
Qed.

Lemma mapi_from_indices (f : BrainNode -> nat -> Nearby) l : forall k,
  (forall b j, index (f b j) = j) ->
  map index (mapi_from f k l) = seq k (List.length l).
Proof.
  intros k Hf. revert k.
  induction l as [|a l IH]; intros k; cbn [mapi_from map List.length seq];
    [reflexivity|].
  now rewrite Hf, IH.
Qed.

Lemma nearbyNodes_indices_NoDup nodes n i cc :
  NoDup (map index (nearbyNodes nodes n i cc)).
Proof.
  unfold nearbyNodes. rewrite <- firstn_map. apply NoDup_firstn.
  eapply Permutation_NoDup.
  - symmetry. apply Permutation_map, sortNearby_perm.
  - apply NoDup_map_filter.
    rewrite mapi_from_indices by reflexivity. apply seq_NoDup.
Qed.

Lemma map_flat_map_comm {A B C : Type} (g : B -> C) (f : A -> list B) l :
  map g (flat_map f l) = flat_map (fun a => map g (f a)) l.
Proof.
  induction l as [|a l IH]; cbn [flat_map map]; [reflexivity|].
  now rewrite map_app, IH.
Qed.

Lemma NoDup_flat_map {A B : Type} (f : A -> list B) l :
  NoDup l ->
  (forall a, NoDup (f a)) ->
  (forall a a' b, In a l -> In a' l -> In b (f a) -> In b (f a') -> a = a') ->
  NoDup (flat_map f l).
Proof.
  induction 1 as [|a l Ha Hl IH]; intros Hf Hinj; cbn [flat_map]; [constructor|].
  apply NoDup_app.
  - apply Hf.
  - apply IH; trivial. intros x x' b Hx Hx'. apply Hinj; now right.
  - intros b Hb Hb'. apply in_flat_map in Hb'. destruct Hb' as (a' & Ha' & Hb').
    assert (a = a') by (apply (Hinj a a' b); simpl; auto).
    subst a'. contradiction.
Qed.

(** The edges one node records go to different nodes. *)
Lemma accepted_directed_NoDup width height nodes n i cc T (r : nat -> R) :
  NoDup (map id nodes) ->
  NoDup (map directed
           (flat_map (fun j => accepted width height n cc (nearbyNodes nodes n i cc) j (r j))
              (seq 0 T))).
Proof.
  intros Hnd. rewrite map_flat_map_comm. apply NoDup_flat_map.
  - apply seq_NoDup.
  - intros j. pose proof (accepted_length width height n cc
                            (nearbyNodes nodes n i cc) j (r j)) as HL.
    destruct (accepted width height n cc (nearbyNodes nodes n i cc) j (r j))
      as [|e [|e' l]]; cbn in *; try lia; repeat constructor; auto.
  - intros j j' p _ _ Hp Hp'.
    apply in_map_iff in Hp, Hp'.
    destruct Hp as (e & <- & He), Hp' as (e' & Hee & He').
    apply accepted_inv in He, He'.
    destruct He as (c & Hc & _ & _ & ->), He' as (c' & Hc' & _ & _ & ->).
    unfold directed in Hee. cbn [source target] in Hee.
    assert (Hid : id (node c') = id (node c)) by congruence.
    pose proof (nearbyNodes_item _ _ _ _ _ (nth_error_In _ _ Hc)) as (_ & Hn & _).
    pose proof (nearbyNodes_item _ _ _ _ _ (nth_error_In _ _ Hc')) as (_ & Hn' & _).
    assert (Hidx : index c = index c').
    { rewrite NoDup_nth_error in Hnd. apply Hnd.
      - rewrite length_map. apply nth_error_Some. congruence.
      - rewrite !nth_error_map, Hn, Hn'. cbn. now f_equal. }
    pose proof (nearbyNodes_indices_NoDup nodes n i cc) as Hind.
    rewrite NoDup_nth_error in Hind. apply Hind.
    + rewrite length_map. apply nth_error_Some. congruence.
    + rewrite !nth_error_map, Hc, Hc'. cbn. now f_equal.
Qed.

Section Directed.

Variable random : nat -> R.
Variables width height : R.

Lemma connectNodes_directed sk :
  NoDup (map id sk) ->
  forall len a net k,
    skeleton (fst net) = sk ->
    NoDup (map directed (snd net)) -> sourcesBelow sk a (snd net) ->
    NoDup (map directed
             (snd (fst (connectNodes random width height (seq a len) net k)))).
Proof.
  intros Hnd. induction len as [|len IH]; intros a net k Hsk Hd Hbelow;
    [exact Hd|].
  cbn [seq connectNodes]. rewrite bind_eq.
  destruct (nth_error (fst net) a) as [n|] eqn:Hn.
  - destruct (connectNode_spec random width height a net k n Hn) as [Hs He].
    cbv zeta in Hs, He.
    set (res := connectNode random width height a net k) in *.
    set (new := flat_map _ _) in He.
    assert (Hsrc : forall e, In e new -> source e = id n).
    { intros e Hin. apply in_flat_map in Hin. destruct Hin as (j & _ & Hin).
      apply accepted_inv in Hin. destruct Hin as (c & _ & _ & _ & ->).
      reflexivity. }
    apply IH.
    + congruence.
    + rewrite He, map_app. apply NoDup_app; trivial.
      * unfold new. apply accepted_directed_NoDup.
        rewrite <- (skeleton_map id) by reflexivity. now rewrite Hsk.
      * intros p Hp Hp'. apply in_map_iff in Hp, Hp'.
        destruct Hp as (e & <- & Hin), Hp' as (e' & Hee & Hin').
        destruct (Hbelow e Hin) as (i & m & Hi & Hm & Hse).
        apply Hsrc in Hin'. unfold directed in Hee.
        assert (E : id m = id n) by congruence.
        rewrite NoDup_nth_error in Hnd.
        assert (i = a); [|lia].
        apply Hnd.
        -- rewrite length_map. apply nth_error_Some. congruence.
        -- rewrite !nth_error_map, Hm, <- Hsk, (skeleton_nth_error _ _ _ Hn).
           cbn. now f_equal.
    + intros e Hin. rewrite He in Hin. apply in_app_or in Hin.
      destruct Hin as [Hin|Hin].
      * destruct (Hbelow e Hin) as (i & m & Hi & Hm & Hse).
        exists i, m. repeat split; trivial. lia.
      * exists a, (erase n). repeat split; [lia| |now apply Hsrc].
        rewrite <- Hsk. now apply skeleton_nth_error.
  - rewrite connectNode_none by exact Hn. apply IH; trivial.
    intros e Hin. destruct (Hbelow e Hin) as (i & m & Hi & Hm & Hse).
    exists i, m. repeat split; trivial. lia.
Qed.

End Directed.

(** X4: a generated layout records no directed edge twice: two edges
    never have both the same source and the same target (the reverse
    edge may exist). *)
Theorem no_edge_twice (random : nat -> R) (width height : R) (showLabels : bool) :
  NoDup (map directed (snd (generate random width height showLabels))).
Proof.
  rewrite generate_placed.
  apply (connectNodes_directed random width height
           (skeleton (placed random width height showLabels))).
  - rewrite skeleton_map by reflexivity. apply placed_ids_NoDup.
  - reflexivity.
  - constructor.
  - intros e [].
Qed.

(** * Further properties of the search flow *)

Lemma includes_empty sub :
  sub <> EmptyString -> includes EmptyString sub = false.
Proof. destruct sub; [congruence|reflexivity]. Qed.

(** What a run that gets a parsed response does, in one equation. *)
Lemma searchWithOllama_success amb query s data g :
  fetch amb (searchRequest query) = Response true (Some data) ->
  getProperty data "knowledge_graph" = Some g ->
  snd (searchWithOllama amb query s) =
  let r0 := onState (setKnowledgeGraph g)
              (sending (searchRequest query) (onState (setIsLoading true) (mkRun s [] []))) in
  let q := toLowerCase (searchQuery s) in
  let r1 := if includes q "energy" || includes q "energia"
            then csvLookup amb r0
            else onState (setCsvStartups (JArr [])) r0 in
  onState (setIsLoading false)
    (onState (setShowResults true)
       (onState
          (setZoomTarget
             (Some (zoomRandomX amb * windowWidth amb * 0.3 + windowWidth amb * 0.2,
                    zoomRandomY amb * windowHeight amb * 0.3 + windowHeight amb * 0.2)))
          r1)).
Proof.
  intros Hf Hg. unfold searchWithOllama, searchBody. rewrite Hf, Hg. reflexivity.
Qed.




(** X6: a success response whose body does not parse, or parses to
    [null], is handled like a failure: the exception is caught, one
    error is logged, only the search request was sent, and the state is
    the one before with the loading flag cleared. *)
Theorem search_malformed_body_keeps_view (amb : Ambient) (query : string)
    (s : HomeState) :
  fetch amb (searchRequest query) = Response true None \/
  fetch amb (searchRequest query) = Response true (Some JNull) ->
  let res := searchWithOllama amb query s in
  fst res = Normal /\
  console (snd res) = [console_error "Error searching:"] /\
  sent (snd res) = [searchRequest query] /\
  state (snd res) = setIsLoading false s /\
  resultsPanelShown (state (snd res)) = resultsPanelShown s.
Proof.
  intros [E|E]; unfold searchWithOllama, searchBody; rewrite E; cbn; auto.
Qed.

Lemma search_malformed_body_keeps_view_witness :
  fetch (mkAmbient (fun _ => None) (fun _ => Response true None) 0 0 800 600)
    (searchRequest "mobility") = Response true None /\
  state (snd (searchWithOllama
                (mkAmbient (fun _ => None) (fun _ => Response true None) 0 0 800 600)
                "mobility" landing)) = setIsLoading false landing.
Proof.
  split; [reflexivity|].
  apply (search_malformed_body_keeps_view
           (mkAmbient (fun _ => None) (fun _ => Response true None) 0 0 800 600)
           "mobility" landing).
  left. reflexivity.
Defined.

(** X7: whether a search also looks the Energy sector up is decided by
    the query held in the component state when the search starts, not by
    the query submitted: if the one of the state mentions neither "energy"
    nor "energia", the search request is the only request sent, whatever
    is searched for, and a successful search empties the startups. *)
Theorem sector_lookup_follows_state_query (amb : Ambient) (query : string)
    (s : HomeState) :
  includes (toLowerCase (searchQuery s)) "energy" = false ->
  includes (toLowerCase (searchQuery s)) "energia" = false ->
  let res := searchWithOllama amb query s in
  sent (snd res) = [searchRequest query] /\
  (forall data g,
      fetch amb (searchRequest query) = Response true (Some data) ->
      getProperty data "knowledge_graph" = Some g ->
      csvStartups (state (snd res)) = JArr []).
Proof.
  intros H1 H2. cbv zeta. split.
  - destruct (fetch amb (searchRequest query)) as [|[|] [data|]] eqn:Hf;
      try (unfold searchWithOllama, searchBody; rewrite Hf; reflexivity).
    destruct (getProperty data "knowledge_graph") as [g|] eqn:Hg.
    + rewrite (searchWithOllama_success amb query s data g Hf Hg). cbv zeta.
      rewrite H1, H2. reflexivity.
    + unfold searchWithOllama, searchBody. rewrite Hf, Hg. reflexivity.
  - intros data g Hf Hg.
    rewrite (searchWithOllama_success amb query s data g Hf Hg). cbv zeta.
    rewrite H1, H2. reflexivity.
Qed.

Lemma sector_lookup_follows_state_query_witness :
  includes (toLowerCase (searchQuery landing)) "energy" = false /\
  includes (toLowerCase (searchQuery landing)) "energia" = false /\
  sent (snd (searchWithOllama online "energy storage" landing)) =
    [searchRequest "energy storage"].
Proof.
  split; [reflexivity|]. split; [reflexivity|].
  exact (proj1 (sector_lookup_follows_state_query online "energy storage" landing
                  eq_refl eq_refl)).
Defined.

(** X8: a search started from the [search] parameter of the address on
    a freshly mounted page sends the search request and nothing else,
    even when the parameter mentions energy, and leaves the parameter as
    the query of the state; without the parameter, or with an empty one,
    nothing is sent and the state is untouched. *)
Theorem url_search_sends_one_request (amb : Ambient) (searchParam : option string)
    (s : HomeState) :
  searchQuery s = ""%string ->
  let res := searchFromUrl amb searchParam s in
  match searchParam with
  | Some (String c p) =>
      sent (snd res) = [searchRequest (String c p)] /\
      searchQuery (state (snd res)) = String c p /\
      isLoading (state (snd res)) = false
  | _ => sent (snd res) = [] /\ state (snd res) = s /\ console (snd res) = []
  end.
Proof.
  intros Hq. cbv zeta. destruct searchParam as [[|c p]|]; cbn [searchFromUrl String.eqb];
    try (repeat split; reflexivity).
  replace (String.eqb (String c p) "") with false by (symmetry; now apply String.eqb_neq).
  cbn [fst snd onState sent state].
  assert (H1 : includes (toLowerCase (searchQuery s)) "energy" = false)
    by now rewrite Hq.
  assert (H2 : includes (toLowerCase (searchQuery s)) "energia" = false)
    by now rewrite Hq.
  split; [exact (proj1 (sector_lookup_follows_state_query amb _ s H1 H2))|].
  split; [reflexivity|].
  unfold searchWithOllama. cbn. reflexivity.
Qed.

Lemma url_search_sends_one_request_witness :
  searchQuery initialHome = ""%string /\
  sent (snd (searchFromUrl online (Some "energy storage"%string) initialHome)) =
    [searchRequest "energy storage"].
Proof.
  split; [reflexivity|].
  exact (proj1 (url_search_sends_one_request online
                  (Some "energy storage"%string) initialHome eq_refl)).
Defined.

(** X9: when the query of the state mentions energy and the search
    succeeds, the sector lookup is sent; if that lookup fails (rejected,
    non-success status, body that does not parse, [null] body) the
    results are shown all the same and the startups listed before the
    search are neither cleared nor replaced. *)
Theorem failed_sector_lookup_keeps_startups (amb : Ambient) (query : string)
    (s : HomeState) (data g : Json) :
  fetch amb (searchRequest query) = Response true (Some data) ->
  getProperty data "knowledge_graph" = Some g ->
  includes (toLowerCase (searchQuery s)) "energy" = true ->
  sectorLookupFails amb ->
  let res := searchWithOllama amb query s in
  sent (snd res) = [searchRequest query; sectorRequest] /\
  csvStartups (state (snd res)) = csvStartups s /\
  showResults (state (snd res)) = true /\
  knowledgeGraph (state (snd res)) = g /\
  Forall (fun e => exists msg, e = console_log msg) (console (snd res)).
Proof.
  intros Hf Hg He Hfail. cbv zeta.
  rewrite (searchWithOllama_success amb query s data g Hf Hg). cbv zeta.
  rewrite He. cbn [orb]. unfold csvLookup.
  destruct Hfail as [E|[[j E]|[E|E]]]; rewrite E; cbn;
    repeat split; repeat constructor; eauto.
Qed.

Lemma failed_sector_lookup_keeps_startups_witness :
  fetch online (searchRequest "solar") = Response true (Some scenarioBody) /\
  includes (toLowerCase (searchQuery afterEnergy)) "energy" = true /\
  sectorLookupFails online /\
  csvStartups (state (snd (searchWithOllama online "solar" afterEnergy))) =
    JArr [JObj [("name"%string, JStr "Voltaic")]].
Proof.
  assert (Hfail : sectorLookupFails online) by (left; reflexivity).
  split; [reflexivity|]. split; [reflexivity|]. split; [exact Hfail|].
  pose proof (failed_sector_lookup_keeps_startups online "solar" afterEnergy
                scenarioBody _ eq_refl eq_refl eq_refl Hfail) as P.
  cbv zeta in P. destruct P as (_ & P & _). exact P.
Defined.

Lemma searchWithOllama_frame amb query s :
  searchQuery (state (snd (searchWithOllama amb query s))) = searchQuery s /\
  showSectorDropdown (state (snd (searchWithOllama amb query s))) =
    showSectorDropdown s /\
  isLoading (state (snd (searchWithOllama amb query s))) = false.
Proof.
  unfold searchWithOllama, searchBody.
  destruct (fetch amb (searchRequest query)) as [|[|] [data|]]; cbn; auto.
  destruct (getProperty data "knowledge_graph") as [g|]; cbn; auto.
  destruct (includes (toLowerCase (searchQuery s)) "energy"
            || includes (toLowerCase (searchQuery s)) "energia"); cbn; auto.
  unfold csvLookup.
  destruct (fetch amb sectorRequest) as [|[|] [csv|]]; cbn; auto.
  destruct (getProperty csv "startups"); cbn; auto.
Qed.

Lemma handleBack_eq s :
  handleBack s =
  mkHome "" false (isLoading s) JNull (JArr []) None (showSectorDropdown s).
Proof. reflexivity. Qed.

(** X10: the back button erases every trace of a search, whatever its
    outcome: pressed after a search it gives the state it would give had
    the search changed nothing but the loading flag; the results panel is
    hidden afterwards, the query is empty, and pressing it again changes
    nothing. *)
Theorem back_erases_search (amb : Ambient) (query : string) (s : HomeState) :
  let s' := state (snd (searchWithOllama amb query s)) in
  handleBack s' = handleBack (setIsLoading false s) /\
  resultsPanelShown (handleBack s') = false /\
  searchQuery (handleBack s') = ""%string /\
  handleBack (handleBack s') = handleBack s'.
Proof.
  cbv zeta.
  destruct (searchWithOllama_frame amb query s) as (_ & Hd & Hl).
  rewrite !handleBack_eq. cbn [isLoading showSectorDropdown setIsLoading].
  rewrite Hd, Hl. repeat split.
Qed.

(** ** Clicks on the nodes of a layout *)

Lemma Forall2_weaken_In {A B : Type} (P Q : A -> B -> Prop) l l' :
  (forall a b, In a l -> P a b -> Q a b) -> Forall2 P l l' -> Forall2 Q l l'.
Proof.
  intros H HF. induction HF as [|a b l l' Hab HF IH]; constructor.
  - apply H; simpl; auto.
  - apply IH. intros a' b' Ha'. apply H. now right.
Qed.

(** X11: in a generated layout a click navigates exactly from the hubs:
    the handler of the home page calls [navigate] with
    /dashboard?focus=<identifier> for each of the five labeled nodes and
    does nothing for any other node. *)
Theorem click_navigates_from_hubs (random : nat -> R) (width height : R)
    (showLabels : bool) :
  let nodes := fst (generate random width height showLabels) in
  Forall (fun n =>
            handleNodeClick n =
            if isMain n then Some ("/dashboard?focus=" ++ id n)%string else None)
    nodes /\
  map handleNodeClick (filter hasLabel nodes) =
    map (fun i => Some ("/dashboard?focus=" ++ i)%string)
      (if showLabels
       then ["mobility"; "funding"; "electric-vehicles"; "startups"; "europe"]
       else ["mobility"; "funding"; "startups"; "technology"; "europe"])%string.
Proof.
  cbv zeta.
  destruct (placed_split random width height showLabels)
    as (hubs & small & Hsplit & Hh & Hs).
  assert (Hhub : Forall2 (fun ci n => handleNodeClick n = clickOfCentral (fst ci)
                                      /\ isMain n = true /\ hasLabel n = true
                                      /\ id n = c_id (fst ci))
                   (combine (centralNodes showLabels) (seq 0 5)) hubs).
  { eapply Forall2_weaken_In; [|exact Hh].
    intros ci n Hin [k' ->].
    destruct (placeCentral_fields random width height (fst ci) (snd ci) k')
      as (Hi & Hl & Ht).
    unfold handleNodeClick, isMain, hasLabel, clickOfCentral.
    rewrite Hi, Hl, Ht.
    destruct showLabels; cbn in Hin;
      repeat (destruct Hin as [<-|Hin]; [auto|]); destruct Hin. }
  assert (Hsmall : Forall (fun n => handleNodeClick n = None /\ isMain n = false
                                    /\ hasLabel n = false) small).
  { eapply Forall2_Forall_r; [|exact Hs]. intros i n _ [k' ->].
    destruct (placeNode_fields random width height i k') as (_ & Hl & Ht).
    unfold handleNodeClick, isMain, hasLabel. rewrite Hl.
    destruct (type (fst (placeNode random width height i k'))); cbn; auto.
    congruence. }
  split.
  - apply (Forall_skeleton
             (fun n => handleNodeClick n =
                       if isMain n then Some ("/dashboard?focus=" ++ id n)%string
                       else None)); [reflexivity|].
    rewrite generate_skeleton.
    apply (Forall_skeleton
             (fun n => handleNodeClick n =
                       if isMain n then Some ("/dashboard?focus=" ++ id n)%string
                       else None)); [reflexivity|].
    rewrite Hsplit. apply Forall_app; split.
    + eapply Forall2_Forall_r; [|exact Hhub].
      intros ci n Hin (Hc & Hm & _ & Hi). rewrite Hc, Hm, Hi.
      destruct showLabels; cbn in Hin;
        repeat (destruct Hin as [<-|Hin]; [reflexivity|]); destruct Hin.
    + eapply Forall_impl; [|exact Hsmall]. intros n (Hc & Hm & _).
      now rewrite Hc, Hm.
  - rewrite <- (filter_skeleton handleNodeClick hasLabel) by reflexivity.
    rewrite generate_skeleton, filter_skeleton by reflexivity.
    rewrite Hsplit, filter_app, map_app.
    rewrite (filter_all _ hubs), (filter_none _ small), app_nil_r.
    + assert (H : map handleNodeClick hubs =
                  map (fun ci => clickOfCentral (fst ci))
                    (combine (centralNodes showLabels) (seq 0 5))).
      { apply Forall2_map_eq. eapply Forall2_weaken; [|exact Hhub].
        intros ci n (Hc & _). exact Hc. }
      rewrite H. now destruct showLabels.
    + eapply Forall_impl; [|exact Hsmall]. intros n (_ & _ & Hl). exact Hl.
    + eapply Forall2_Forall_r; [|exact Hhub]. intros ci n _ (_ & _ & Hl & _).
      exact Hl.
Qed.

(** * Properties of the drawing *)

Lemma findNode_unique nodes : forall i s,
  NoDup (map id nodes) -> nth_error nodes i = Some s ->
  findNode nodes (id s) = Some s.
Proof.
  unfold findNode.
  induction nodes as [|a nodes IH]; intros i s Hnd Hs; [now destruct i|].
  cbn [map] in Hnd. apply NoDup_cons_iff in Hnd. destruct Hnd as [Ha Hnd].
  cbn [find]. destruct i as [|i]; cbn [nth_error] in Hs.
  - inversion Hs; subst. now rewrite String.eqb_refl.
  - destruct (String.eqb_spec (id a) (id s)) as [E|_].
    + exfalso. apply Ha. rewrite E. apply in_map. eapply nth_error_In; eauto.
    + eapply IH; eauto.
Qed.

Lemma drawConnections_justified width height nodes :
  0 < width -> 0 < height ->
  NoDup (map id nodes) ->
  forall edges index,
    Forall (justified width height nodes) edges ->
    Forall2 (fun ei l =>
               exists s t,
                 In s nodes /\ In t nodes /\
                 id s = source (fst ei) /\ id t = target (fst ei) /\
                 l = lineFor (fst ei) (snd ei) s t /\
                 0.06 <= lineOpacity l <= 0.3)
      (combine edges (seq index (List.length edges)))
      (drawConnections nodes edges index).
Proof.
  intros Hw Hh Hnd. induction edges as [|e edges IH]; intros index HF;
    [constructor|].
  apply Forall_cons_iff in HF. destruct HF as [He HF].
  destruct He as (i & j & s & t & _ & Hs & Ht & Hsrc & Htgt & _ & Hstr).
  cbn [drawConnections List.length seq combine].
  rewrite Hsrc, Htgt.
  rewrite (findNode_unique nodes i s Hnd Hs), (findNode_unique nodes j t Hnd Ht).
  cbn [app]. constructor; [|now apply IH].
  exists s, t. cbn [fst snd]. unfold lineFor. cbn [lineOpacity].
  repeat split; eauto using nth_error_In.
  - rewrite Hstr.
    pose proof (strength_range (dist s t) (maxDistance width height (type s))
                  (dist_nonneg s t) (maxDistance_pos width height (type s) Hw Hh)).
    assert (0.2 <= Rmax 0.2 (1 - dist s t / maxDistance width height (type s)))
      by apply Rmax_l.
    lra.
  - rewrite Hstr.
    pose proof (strength_range (dist s t) (maxDistance width height (type s))
                  (dist_nonneg s t) (maxDistance_pos width height (type s) Hw Hh)).
    lra.
Qed.

(** X12: on a canvas of positive size, the drawing of a generated layout
    has one line per edge, none skipped: the line of the edge at place k
    starts its transition after 3k ms, joins the position of the node
    whose identifier is the source to the position of the node whose
    identifier is the target, and ends at an opacity of 0.3 times the
    strength, between 0.06 and 0.3. *)
Theorem every_edge_drawn (random : nat -> R) (width height : R) (showLabels : bool) :
  0 < width -> 0 < height ->
  let nodes := fst (generate random width height showLabels) in
  let edges := snd (generate random width height showLabels) in
  List.length (drawConnections nodes edges 0) = List.length edges /\
  Forall2 (fun ei l =>
             exists s t,
               In s nodes /\ In t nodes /\
               id s = source (fst ei) /\ id t = target (fst ei) /\
               l = lineFor (fst ei) (snd ei) s t /\
               0.06 <= lineOpacity l <= 0.3)
    (combine edges (seq 0 (List.length edges)))
    (drawConnections nodes edges 0).
Proof.
  intros Hw Hh. cbv zeta.
  pose proof (drawConnections_justified width height _ Hw Hh
                (generate_ids_NoDup random width height showLabels)
                _ 0%nat (generate_justified random width height showLabels)) as H.
  split; [|exact H].
  apply Forall2_length in H. rewrite <- H, length_combine, length_seq. lia.
Qed.

Lemma every_edge_drawn_witness :
  0 < 800 /\ 0 < 600 /\
  List.length
    (drawConnections (fst (generate (fun _ => 0) 800 600 false))
       (snd (generate (fun _ => 0) 800 600 false)) 0) =
  List.length (snd (generate (fun _ => 0) 800 600 false)).
Proof.
  split; [lra|]. split; [lra|].
  apply (every_edge_drawn (fun _ => 0) 800 600 false); lra.
Defined.

Lemma circles_app l r : circles (l ++ r) = circles l ++ circles r.
Proof.
  induction l as [|[c|t] l IHl]; simpl; rewrite ?IHl; reflexivity.
Qed.

Lemma captions_app l r : captions (l ++ r) = captions l ++ captions r.
Proof.
  induction l as [|[c|t] l IHl]; simpl; rewrite ?IHl; reflexivity.
Qed.

Lemma drawNodes_circles (interactive showLabels : bool) (nodes : list BrainNode) :
  forall index,
  Forall2 (fun ni c =>
             ccx c = x (fst ni) /\ ccy c = y (fst ni) /\ cr c = radius (fst ni) /\
             cglow c = isMain (fst ni) /\ cdelay c = (snd ni * 4)%nat /\
             cclick c = if interactive then Some (fst ni) else None)
    (combine nodes (seq index (List.length nodes)))
    (circles (drawNodes interactive showLabels nodes index)).
Proof.
  induction nodes as [|n nodes IH]; intros index; [constructor|].
  cbn [drawNodes List.length seq combine]. rewrite circles_app.
  assert (Hc : exists c,
             circles (drawNode interactive showLabels n index) = [c] /\
             ccx c = x n /\ ccy c = y n /\ cr c = radius n /\
             cglow c = isMain n /\ cdelay c = (index * 4)%nat /\
             cclick c = if interactive then Some n else None).
  { unfold drawNode.
    match goal with |- context [ECircle ?c0] => exists c0 end.
    cbn [circles]. split.
    - destruct (labelOf n); [destruct (NodeType_eqb (type n) main)|]; reflexivity.
    - cbn. repeat split. }
  destruct Hc as (c & -> & Hc). cbn [app]. constructor; [exact Hc|apply IH].
Qed.

Lemma drawNodes_captions (interactive showLabels : bool) (nodes : list BrainNode) :
  forall index,
  map ttext (captions (drawNodes interactive showLabels nodes index)) =
  flat_map captionText nodes.
Proof.
  induction nodes as [|n nodes IH]; intros index; [reflexivity|].
  cbn [drawNodes flat_map]. rewrite captions_app, map_app, IH. f_equal.
  unfold drawNode, captionText. cbn [captions].
  destruct (labelOf n); [destruct (NodeType_eqb (type n) main)|]; reflexivity.
Qed.

Lemma flat_map_skeleton {B : Type} (f : BrainNode -> list B) l :
  (forall n, f (erase n) = f n) -> flat_map f (skeleton l) = flat_map f l.
Proof.
  intros Hf. induction l as [|a l IH]; [reflexivity|].
  cbn [skeleton map flat_map]. rewrite Hf. f_equal. exact IH.
Qed.

Lemma flat_map_nil {A B : Type} (f : A -> list B) l :
  Forall (fun a => f a = []) l -> flat_map f l = [].
Proof. induction 1 as [|a l Ha Hl IH]; cbn [flat_map]; [|rewrite Ha, IH]; trivial. Qed.

(** X13: a generated layout is always drawn (it is never empty) once
    the svg is mounted; the drawing has one circle per node, in node
    order, at the node's position, growing to the node's radius, starting
    after 4 ms per index, and glowing exactly for the hubs; it has five
    texts, the labels of the hubs in order, and no other text. *)
Theorem drawing_of_layout (random : nat -> R) (width height : R)
    (showLabels interactive labelled : bool) :
  let nodes := fst (generate random width height showLabels) in
  let edges := snd (generate random width height showLabels) in
  exists scene,
    draw true interactive labelled nodes edges = Some scene /\
    Forall2 (fun ni c =>
               ccx c = x (fst ni) /\ ccy c = y (fst ni) /\ cr c = radius (fst ni) /\
               cglow c = isMain (fst ni) /\ cdelay c = (snd ni * 4)%nat /\
               cclick c = if interactive then Some (fst ni) else None)
      (combine nodes (seq 0 (List.length nodes)))
      (circles (elements scene)) /\
    List.length (circles (elements scene)) = List.length nodes /\
    map ttext (captions (elements scene)) =
      (if showLabels
       then ["Mobility"; "Funding"; "Electric Vehicles"; "Startups"; "Europe"]
       else ["Mobility"; "Funding"; "Startups"; "Technology"; "Europe"])%string.
Proof.
  cbv zeta. unfold draw.
  pose proof (generate_length random width height showLabels) as Hlen.
  pose proof (nodeCount_range width height) as Hn.
  replace (negb true || (List.length (fst (generate random width height showLabels)) =? 0)%nat)
    with false by (symmetry; apply Nat.eqb_neq; lia).
  eexists. split; [reflexivity|]. cbn [elements].
  pose proof (drawNodes_circles interactive labelled
                (fst (generate random width height showLabels)) 0) as Hc.
  split; [exact Hc|]. split.
  - apply Forall2_length in Hc. rewrite <- Hc, length_combine, length_seq. lia.
  - rewrite drawNodes_captions.
    rewrite <- (flat_map_skeleton captionText) by reflexivity.
    rewrite generate_skeleton, flat_map_skeleton by reflexivity.
    destruct (placed_split random width height showLabels)
      as (hubs & small & -> & Hh & Hs).
    rewrite flat_map_app, (flat_map_nil captionText small), app_nil_r.
    + assert (H : Forall2 (fun ci n => captionText n = [c_label (fst ci)])
                    (combine (centralNodes showLabels) (seq 0 5)) hubs).
      { eapply Forall2_weaken_In; [|exact Hh]. intros ci n Hin [k' ->].
        destruct (placeCentral_fields random width height (fst ci) (snd ci) k')
          as (_ & Hl & Ht).
        unfold captionText, labelOf. rewrite Hl, Ht.
        destruct showLabels; cbn in Hin;
          repeat (destruct Hin as [<-|Hin]; [reflexivity|]); destruct Hin. }
      assert (H' : flat_map captionText hubs =
                   map (fun ci => c_label (fst ci))
                     (combine (centralNodes showLabels) (seq 0 5))).
      { clear Hh. induction H as [|ci n l l' Hcn HF IH]; [reflexivity|].
        cbn [flat_map map]. now rewrite Hcn, IH. }
      rewrite H'. now destruct showLabels.
    + eapply Forall2_Forall_r; [|exact Hs]. intros i n _ [k' ->].
      destruct (placeNode_fields random width height i k') as (_ & Hl & _).
      unfold captionText, labelOf. now rewrite Hl.
Qed.

(** * Properties of the text cleaning *)

Lemma trimStart_split s :
  exists pre, s = pre ++ trimStart s /\ Forall (fun c => isWhiteSpace c = true) pre.
Proof.
  induction s as [|c s (pre & Hs & Hp)]; [exists []; split; [reflexivity|constructor]|].
  cbn [trimStart]. destruct (isWhiteSpace c) eqn:E.
  - exists (c :: pre). split; [cbn; now f_equal|now constructor].
  - exists []. split; [reflexivity|constructor].
Qed.

Lemma trimStart_head s c :
  hd_error (trimStart s) = Some c -> isWhiteSpace c = false.
Proof.
  induction s as [|a s IH]; cbn [trimStart]; [discriminate|].
  destruct (isWhiteSpace a) eqn:E; [exact IH|].
  cbn. intros H. inversion H; subst. exact E.
Qed.

Lemma trimStart_id s :
  (forall c, hd_error s = Some c -> isWhiteSpace c = false) -> trimStart s = s.
Proof.
  destruct s as [|c s]; [reflexivity|]. intros H. cbn [trimStart].
  now rewrite (H c eq_refl).
Qed.

Lemma trimEnd_split s :
  exists suf, s = trimEnd s ++ suf /\ Forall (fun c => isWhiteSpace c = true) suf.
Proof.
  unfold trimEnd. destruct (trimStart_split (List.rev s)) as (pre & Hs & Hp).
  exists (List.rev pre). split.
  - rewrite <- rev_app_distr, <- Hs. symmetry. apply rev_involutive.
  - apply Forall_rev. exact Hp.
Qed.

Lemma trim_trimmed s : trimmed (trim s).
Proof.
  unfold trimmed, trim. split.
  - intros c Hc.
    destruct (trimEnd_split (trimStart s)) as (suf & Hs & _).
    apply (trimStart_head s c). rewrite Hs.
    destruct (trimEnd (trimStart s)); [discriminate|exact Hc].
  - intros c. unfold trimEnd. rewrite rev_involutive. apply trimStart_head.
Qed.

Lemma trim_id s : trimmed s -> trim s = s.
Proof.
  intros [Hh Hl]. unfold trim, trimEnd.
  rewrite (trimStart_id s Hh), (trimStart_id (List.rev s) Hl).
  apply rev_involutive.
Qed.

Lemma trim_idempotent s : trim (trim s) = trim s.
Proof. apply trim_id, trim_trimmed. Qed.

Lemma trimStart_In s c : In c (trimStart s) -> In c s.
Proof.
  destruct (trimStart_split s) as (pre & Hs & _). intros H.
  rewrite Hs. apply in_or_app. now right.
Qed.

Lemma trim_In s c : In c (trim s) -> In c s.
Proof.
  unfold trim. intros H. apply trimStart_In.
  destruct (trimEnd_split (trimStart s)) as (suf & Hs & _).
  rewrite Hs. apply in_or_app. now left.
Qed.

Lemma trim_Forall (P : N -> Prop) s : Forall P s -> Forall P (trim s).
Proof.
  rewrite !Forall_forall. intros H c Hc. apply H. now apply trim_In.
Qed.

Lemma removeStars_no_star s : Forall (fun c => c <> 42%N) (removeStars s).
Proof.
  apply Forall_forall. intros c Hc. apply filter_In in Hc.
  destruct Hc as [_ Hc]. apply negb_true_iff, N.eqb_neq in Hc. exact Hc.
Qed.

Lemma removeStars_id s : Forall (fun c => c <> 42%N) s -> removeStars s = s.
Proof.
  intros H. apply filter_all. eapply Forall_impl; [|exact H].
  intros c Hc. now apply negb_true_iff, N.eqb_neq.
Qed.

Lemma collapseNewlines_Forall (P : N -> Prop) s : forall b,
  P 32%N -> Forall P s -> Forall (fun c => P c /\ c <> 10%N) (collapseNewlines b s).
Proof.
  induction s as [|c s IH]; intros b H32 HF; [constructor|].
  apply Forall_cons_iff in HF. destruct HF as [Hc HF].
  cbn [collapseNewlines]. destruct (N.eqb_spec c 10) as [->|Hne].
  - destruct b; [now apply IH|]. constructor; [split; [exact H32|discriminate]|].
    now apply IH.
  - constructor; [now split|now apply IH].
Qed.

Lemma collapseNewlines_id s : forall b,
  Forall (fun c => c <> 10%N) s -> collapseNewlines b s = s.
Proof.
  induction s as [|c s IH]; intros b HF; [reflexivity|].
  apply Forall_cons_iff in HF. destruct HF as [Hc HF].
  cbn [collapseNewlines]. destruct (N.eqb_spec c 10) as [E|_]; [contradiction|].
  f_equal. now apply IH.
Qed.

Lemma trimStart_blank s :
  Forall (fun c => isWhiteSpace c = true) s -> trimStart s = [].
Proof.
  induction 1 as [|c s Hc Hs IH]; [reflexivity|].
  cbn [trimStart]. now rewrite Hc.
Qed.

Lemma trim_blank s : Forall (fun c => isWhiteSpace c = true) s -> trim s = [].
Proof. intros H. unfold trim. now rewrite (trimStart_blank s H). Qed.

Lemma removeStars_app a b : removeStars (a ++ b) = removeStars a ++ removeStars b.
Proof. apply filter_app. Qed.

Lemma removeStars_stars k : removeStars (repeat 42%N k) = [].
Proof. induction k as [|k IH]; [reflexivity|exact IH]. Qed.

Lemma collapseNewlines_prefix a rest :
  Forall (fun c => c <> 10%N) a ->
  collapseNewlines false (a ++ rest) = a ++ collapseNewlines false rest.
Proof.
  induction 1 as [|c a Hc Ha IH]; [reflexivity|].
  change (collapseNewlines false ((c :: a) ++ rest))
    with (if (c =? 10)%N then 32%N :: collapseNewlines true (a ++ rest)
          else c :: collapseNewlines false (a ++ rest)).
  destruct (N.eqb_spec c 10) as [E|_]; [contradiction|].
  rewrite IH. reflexivity.
Qed.

Lemma collapseNewlines_run k rest :
  collapseNewlines true (repeat 10%N k ++ rest) = collapseNewlines true rest.
Proof. induction k as [|k IH]; [reflexivity|exact IH]. Qed.

Lemma collapseNewlines_blank s : forall b,
  Forall (fun c => isWhiteSpace c = true) s ->
  Forall (fun c => isWhiteSpace c = true) (collapseNewlines b s).
Proof.
  induction s as [|c s IH]; intros b HF; [constructor|].
  apply Forall_cons_iff in HF. destruct HF as [Hc HF].
  cbn [collapseNewlines]. destruct (c =? 10)%N.
  - destruct b; [now apply IH|]. constructor; [reflexivity|now apply IH].
  - constructor; [exact Hc|now apply IH].
Qed.

(** X14: the summary and the insights go through the same chain.  What
    is displayed contains no asterisk and no line feed and has no white
    space at either end; asterisks vanish wherever they are; a run of
    line feeds between two parts without line feed becomes exactly one
    space; a text of nothing but asterisks and white space is displayed
    as nothing; cleaning twice changes nothing more and a text already
    of the displayed form is kept as it is.  An insight is displayed as
    the chain gives it; a summary that is missing or empty is replaced by
    the default sentence, displayed unchanged, and any other summary is
    displayed as the chain gives it. *)
Theorem displayed_text_clean (s : JsString) :
  Forall (fun c => c <> 42%N /\ c <> 10%N) (cleanText s) /\
  trimmed (cleanText s) /\
  cleanText (cleanText s) = cleanText s /\
  (Forall (fun c => c <> 42%N /\ c <> 10%N) s -> trimmed s -> cleanText s = s) /\
  (forall a b k, cleanText (a ++ repeat 42%N k ++ b) = cleanText (a ++ b)) /\
  (forall a b k,
      Forall (fun c => c <> 42%N /\ c <> 10%N) a ->
      Forall (fun c => c <> 42%N /\ c <> 10%N) b ->
      cleanText (a ++ repeat 10%N (S k) ++ b) = trim (a ++ [32%N] ++ b)) /\
  (Forall (fun c => c = 42%N \/ isWhiteSpace c = true) s -> cleanText s = []) /\
  displayInsight s = cleanText s /\
  displaySummary None = defaultSummary /\
  displaySummary (Some []) = defaultSummary /\
  (s <> [] -> displaySummary (Some s) = cleanText s).
Proof.
  assert (Hfix : forall t, Forall (fun c => c <> 42%N /\ c <> 10%N) t -> trimmed t ->
                           cleanText t = t).
  { intros t Ht Htr. unfold cleanText.
    rewrite removeStars_id, collapseNewlines_id, trim_id; trivial;
      eapply Forall_impl; try exact Ht; intros c [H1 H2]; trivial. }
  assert (H1 : Forall (fun c => c <> 42%N /\ c <> 10%N) (cleanText s)).
  { unfold cleanText. apply trim_Forall.
    apply (collapseNewlines_Forall (fun c => c <> 42%N)); [discriminate|].
    apply removeStars_no_star. }
  assert (H2 : trimmed (cleanText s)) by apply trim_trimmed.
  assert (Hdef : cleanText defaultSummary = defaultSummary) by (vm_compute; reflexivity).
  split; [exact H1|]. split; [exact H2|]. split; [now apply Hfix|].
  split; [intros; now apply Hfix|]. split; [|split; [|split]].
  - intros a b k. unfold cleanText.
    now rewrite !removeStars_app, removeStars_stars.
  - intros a b k Ha Hb. unfold cleanText.
    assert (Ha' : Forall (fun c => c <> 42%N) a)
      by (eapply Forall_impl; [|exact Ha]; now intros c [? ?]).
    assert (Ha'' : Forall (fun c => c <> 10%N) a)
      by (eapply Forall_impl; [|exact Ha]; now intros c [? ?]).
    assert (Hb' : Forall (fun c => c <> 42%N) b)
      by (eapply Forall_impl; [|exact Hb]; now intros c [? ?]).
    assert (Hb'' : Forall (fun c => c <> 10%N) b)
      by (eapply Forall_impl; [|exact Hb]; now intros c [? ?]).
    rewrite removeStars_id.
    + rewrite collapseNewlines_prefix by exact Ha''.
      change (collapseNewlines false (repeat 10%N (S k) ++ b))
        with (32%N :: collapseNewlines true (repeat 10%N k ++ b)).
      rewrite collapseNewlines_run, collapseNewlines_id by exact Hb''.
      reflexivity.
    + apply Forall_app; split; [exact Ha'|].
      apply Forall_app; split; [|exact Hb'].
      apply Forall_forall. intros c Hc. apply repeat_spec in Hc. now subst.
  - intros Hs. unfold cleanText. apply trim_blank, collapseNewlines_blank.
    apply Forall_forall. intros c Hc. apply filter_In in Hc.
    destruct Hc as [Hc Hne]. apply negb_true_iff, N.eqb_neq in Hne.
    rewrite Forall_forall in Hs. destruct (Hs c Hc); [contradiction|trivial].
  - split; [reflexivity|]. split; [exact Hdef|]. split; [exact Hdef|].
    intros Hne. destruct s; [contradiction|reflexivity].
Qed.

(** X15: the label of a concept is displayed without any asterisk and
    without white space at either end; cleaning it twice changes nothing
    more; a label without asterisk and without white space at its ends is
    displayed as it is, line feeds inside it included. *)
Theorem cleanLabel_clean (s : JsString) :
  Forall (fun c => c <> 42%N) (cleanLabel s) /\
  trimmed (cleanLabel s) /\
  cleanLabel (cleanLabel s) = cleanLabel s /\
  (Forall (fun c => c <> 42%N) s -> trimmed s -> cleanLabel s = s).
Proof.
  assert (Hfix : forall t, Forall (fun c => c <> 42%N) t -> trimmed t ->
                           cleanLabel t = t).
  { intros t Ht Htr. unfold cleanLabel. now rewrite removeStars_id, trim_id. }
  assert (H1 : Forall (fun c => c <> 42%N) (cleanLabel s)).
  { unfold cleanLabel. apply trim_Forall, removeStars_no_star. }
  assert (H2 : trimmed (cleanLabel s)) by apply trim_trimmed.
  auto.
Qed.

Lemma filter_idempotent {A : Type} (p : A -> bool) l :
  filter p (filter p l) = filter p l.
Proof.
  apply filter_all. apply Forall_forall. intros a Ha.
  now apply filter_In in Ha.
Qed.

(** X16: the query searched for a sector keeps only letters, digits,
    underscores, white space and ampersands of the sector's name, without
    white space at either end, followed by " startups 2024"; cleaning a
    cleaned name changes nothing; for the twelve sectors of the dropdown
    the emoji is dropped and the query is the plain name followed by
    " startups 2024". *)
Theorem sectorQuery_clean (sector : JsString) :
  Forall (fun c => sectorChar c = true) (cleanSector sector) /\
  trimmed (cleanSector sector) /\
  cleanSector (cleanSector sector) = cleanSector sector /\
  map sectorQuery exampleSectors =
  map units
    [ "Fintech & Blockchain startups 2024";
      "AI & Machine Learning startups 2024";
      "Healthtech & Biotech startups 2024";
      "Cleantech & Sustainability startups 2024";
      "Mobility & EV startups 2024";
      "Edtech & Learning startups 2024";
      "Foodtech & AgTech startups 2024";
      "Proptech & Real Estate startups 2024";
      "Cybersecurity startups 2024";
      "Gaming & Metaverse startups 2024";
      "Space Tech startups 2024";
      "Fashion & Wearables startups 2024" ]%string.
Proof.
  assert (H1 : Forall (fun c => sectorChar c = true) (cleanSector sector)).
  { unfold cleanSector. apply trim_Forall. apply Forall_forall.
    intros c Hc. now apply filter_In in Hc. }
  assert (H2 : trimmed (cleanSector sector)) by apply trim_trimmed.
  split; [exact H1|]. split; [exact H2|]. split.
  - unfold cleanSector at 1. rewrite (filter_all sectorChar _ H1).
    now apply trim_id.
  - vm_compute. reflexivity.
Qed.

(** * The candidates of every node of a layout *)

Lemma accepted_iff width height n cc nearby j r e :
  In e (accepted width height n cc nearby j r) <->
  exists c,
    nth_error nearby j = Some c /\
    r < probability (type n) j cc /\
    distance c < maxDistance width height (type n) /\
    e = mkConnection (id n) (id (node c))
          (Rmax 0.2 (1 - distance c / maxDistance width height (type n))).
Proof.
  split; [apply accepted_inv|].
  intros (c & Hc & Hp & Hd & ->). unfold accepted. rewrite Hc.
  destruct (Rlt_dec r (probability (type n) j cc)); [|contradiction].
  destruct (Rlt_dec (distance c) (maxDistance width height (type n)));
    [|contradiction].
  now left.
Qed.

Section Trace.

Variable random : nat -> R.
Variables width height : R.

Lemma connectNode_skeleton i net k :
  skeleton (fst (fst (connectNode random width height i net k))) =
  skeleton (fst net).
Proof.
  destruct (nth_error (fst net) i) as [n|] eqn:Hn.
  - now destruct (connectNode_spec random width height i net k n Hn).
  - now rewrite connectNode_none.
Qed.

Lemma connectNode_recorded i net k :
  snd (fst (connectNode random width height i net k)) =
  snd net ++ recordedBy random width height (i, net, k).
Proof.
  unfold recordedBy. destruct (nth_error (fst net) i) as [n|] eqn:Hn.
  - now destruct (connectNode_spec random width height i net k n Hn).
  - rewrite connectNode_none by exact Hn. now rewrite app_nil_r.
Qed.

Lemma connectTrace_indices idxs : forall net k,
  map (fun call => fst (fst call)) (connectTrace random width height idxs net k) =
  idxs.
Proof.
  induction idxs as [|i idxs IH]; intros net k; [reflexivity|].
  cbn [connectTrace map fst]. now rewrite IH.
Qed.

Lemma connectTrace_calls idxs : forall net k,
  Forall (fun call =>
            In (fst (fst call)) idxs /\
            skeleton (fst (snd (fst call))) = skeleton (fst net))
    (connectTrace random width height idxs net k).
Proof.
  induction idxs as [|i idxs IH]; intros net k; [constructor|].
  cbn [connectTrace]. constructor.
  - cbn. auto.
  - eapply Forall_impl; [|apply IH]. intros call [Hin Hsk].
    split; [now right|]. now rewrite Hsk, connectNode_skeleton.
Qed.

Lemma connectTrace_edges idxs : forall net k,
  snd (fst (connectNodes random width height idxs net k)) =
  snd net ++
  flat_map (recordedBy random width height)
    (connectTrace random width height idxs net k).
Proof.
  induction idxs as [|i idxs IH]; intros net k.
  - cbn. now rewrite app_nil_r.
  - cbn [connectNodes connectTrace flat_map]. rewrite bind_eq, IH.
    now rewrite connectNode_recorded, <- app_assoc.
Qed.

End Trace.

(** C4, amended: for every node of a generated layout, the candidates
    are the K nearest other nodes by Euclidean distance, all different,
    in ascending order of distance, with K = 2 x a target count that is
    within 6-14 for a hub and within 3-8 for any other node; only the
    first target-count of them, the nearer half, are tried, in that
    order, and the edge to the candidate of rank j is recorded exactly
    when the draw of its turn is below the threshold of that rank and its
    distance is below the ceiling; the threshold is 0.8 at every rank for
    a hub and, for any other node, 0.7 at the ranks below 0.6 x target
    and 0.4 at the others: it never rises with the rank and is strictly
    higher for hubs.  The edges of the layout are the edges so recorded,
    node after node. *)
Theorem nearest_candidates_nearer_half_tried (random : nat -> R)
    (width height : R) (showLabels : bool) :
  (forall m, 0 <= random m < 1) ->
  let nodes := fst (generate random width height showLabels) in
  let edges := snd (generate random width height showLabels) in
  let calls := callbacks random width height showLabels in
  map (fun call => fst (fst call)) calls = seq 0 (List.length nodes) /\
  edges = flat_map (recordedBy random width height) calls /\
  Forall
    (fun call =>
       let '(i, net, k) := call in
       skeleton (fst net) = skeleton nodes /\
       exists n,
         nth_error (fst net) i = Some n /\
         let cc := fst (connectionCount random (type n) k) in
         let nearby := nearbyNodes (fst net) n i cc in
         match type n with
         | main => (6 <= cc <= 14)%Z
         | _ => (3 <= cc <= 8)%Z
         end /\
         List.length nearby = Z.to_nat (cc * 2) /\
         NoDup (map index nearby) /\
         (forall c, In c nearby ->
            index c <> i /\ nth_error (fst net) (index c) = Some (node c) /\
            distance c = dist n (node c)) /\
         ascending nearby /\
         (forall m t c, m <> i -> nth_error (fst net) m = Some t ->
            (forall c', In c' nearby -> index c' <> m) ->
            In c nearby -> distance c <= dist n t) /\
         trials cc nearby = Z.to_nat cc /\
         recordedBy random width height call =
           flat_map
             (fun j => accepted width height n cc nearby j (random (S k + j)%nat))
             (seq 0 (Z.to_nat cc)) /\
         (forall j r e,
            In e (accepted width height n cc nearby j r) <->
            exists c,
              nth_error nearby j = Some c /\
              r < probability (type n) j cc /\
              distance c < maxDistance width height (type n) /\
              e = mkConnection (id n) (id (node c))
                    (Rmax 0.2
                       (1 - distance c / maxDistance width height (type n)))) /\
         (type n = main -> forall j, probability (type n) j cc = 0.8) /\
         (type n <> main -> forall j,
            (INR j < IZR cc * 0.6 -> probability (type n) j cc = 0.7) /\
            (IZR cc * 0.6 <= INR j -> probability (type n) j cc = 0.4)) /\
         (forall j j', (j <= j')%nat ->
            probability (type n) j' cc <= probability (type n) j cc) /\
         (forall t j j', t <> main ->
            probability t j cc < probability main j' cc))
    calls.
Proof.
  intros Hr. cbv zeta.
  pose proof (generate_length random width height showLabels) as Hlen.
  pose proof (placed_length random width height showLabels) as Hplen.
  pose proof (nodeCount_range width height) as HN.
  split; [|split].
  - unfold callbacks. rewrite connectTrace_indices. now rewrite Hlen, Hplen.
  - rewrite generate_placed. unfold callbacks. now rewrite connectTrace_edges.
  - unfold callbacks.
    eapply Forall_impl; [|apply connectTrace_calls].
    intros [[i net] k] [Hin Hsk]. cbn [fst snd] in Hin, Hsk.
    rewrite generate_skeleton. split; [exact Hsk|].
    apply in_seq in Hin.
    assert (Hl : List.length (fst net) =
                 List.length (placed random width height showLabels)).
    { now rewrite <- (skeleton_length (fst net)), Hsk, skeleton_length. }
    destruct (nth_error (fst net) i) as [n|] eqn:Hn;
      [|apply nth_error_None in Hn; lia].
    exists n. split; [reflexivity|]. cbv zeta.
    pose proof (connectionCount_range random (type n) k (Hr k)) as Hcc.
    cbv zeta in Hcc.
    set (cc := fst (connectionCount random (type n) k)) in *.
    assert (Hcc' : (3 <= cc <= 13)%Z) by (destruct (type n); lia).
    assert (HK : List.length (nearbyNodes (fst net) n i cc) = Z.to_nat (cc * 2)).
    { rewrite nearbyNodes_length by lia. lia. }
    assert (HT : trials cc (nearbyNodes (fst net) n i cc) = Z.to_nat cc).
    { unfold trials. rewrite HK. lia. }
    split; [destruct (type n); lia|].
    split; [exact HK|].
    split; [apply nearbyNodes_indices_NoDup|].
    split; [intros c; apply nearbyNodes_item|].
    split; [apply nearbyNodes_ascending|].
    split; [intros m t c Hm Ht Hout Hc; eapply nearbyNodes_nearest; eauto|].
    split; [exact HT|].
    split; [unfold recordedBy; rewrite Hn; cbv zeta; fold cc; now rewrite HT|].
    split; [intros j r e; apply accepted_iff|].
    split; [intros Hm j; rewrite Hm; reflexivity|].
    split.
    { intros Hm j. unfold probability.
      destruct (type n); [congruence| |];
        destruct (Rlt_dec (INR j) (IZR cc * 0.6)); split; intros; lra. }
    split; [intros j j'; apply probability_antitone|].
    intros t j j' Ht. now apply probability_main_highest.
Qed.

(** ** The layout drawn with every draw 0, on 800 by 600 *)

Lemma Forall2_nth_error_r {A B : Type} (P : A -> B -> Prop) l l' :
  Forall2 P l l' ->
  forall m b, nth_error l' m = Some b ->
    exists a, nth_error l m = Some a /\ P a b.
Proof.
  induction 1 as [|a b l l' Hab HF IH]; intros m c Hm; [now destruct m|].
  destruct m as [|m]; cbn [nth_error] in *.
  - inversion Hm; subst. eauto.
  - now apply IH.
Qed.

Lemma zero_hub_at c i k :
  let n := fst (placeCentral (fun _ => 0) 800 600 c i k) in
  x n = centerX (regionAt 800 600 (i mod 6)) /\
  y n = centerY (regionAt 800 600 (i mod 6)) /\
  id n = c_id c /\ type n = c_type c.
Proof.
  cbv [placeCentral bind Math_random ret fst].
  change (List.length (brainRegions 800 600)) with 6%nat.
  cbn [x y id type].
  split; [ring|]. split; [ring|]. split; reflexivity.
Qed.

(** Where the nodes are: the hubs at the centres of their regions, every
    small node at (240, 140). *)
Lemma zero_placed_nth m t :
  nth_error (placed (fun _ => 0) 800 600 false) m = Some t ->
  match m with
  | 0%nat => x t = 280 /\ y t = 180
  | 1%nat => x t = 520 /\ y t = 180 /\ id t = "funding"%string /\ type t = main
  | 2%nat => x t = 400 /\ y t = 150
  | 3%nat => x t = 400 /\ y t = 240
  | 4%nat => x t = 320 /\ y t = 120
  | _ => x t = 240 /\ y t = 140
  end.
Proof.
  destruct (placed_split (fun _ => 0) 800 600 false)
    as (hubs & small & -> & Hh & Hs).
  assert (Lh : List.length hubs = 5%nat) by (now rewrite <- (Forall2_length Hh)).
  intros Hm.
  destruct (Nat.lt_ge_cases m 5) as [Hlt|Hge].
  - rewrite nth_error_app1 in Hm by lia.
    destruct (Forall2_nth_error_r _ _ _ Hh m t Hm) as (ci & Hci & k' & ->).
    destruct (zero_hub_at (fst ci) (snd ci) k') as (Hx & Hy & Hi & Ht).
    cbv zeta in Hx, Hy, Hi, Ht. rewrite Hx, Hy, Hi, Ht.
    destruct m as [|[|[|[|[|m]]]]]; [| | | | |lia];
      cbn in Hci; inversion Hci; subst ci; cbn; repeat split; lra.
  - rewrite nth_error_app2 in Hm by lia.
    destruct (Forall2_nth_error_r _ _ _ Hs _ t Hm) as (i & _ & k' & ->).
    destruct (zero_node_position i k') as (Hx & Hy). cbv zeta in Hx, Hy.
    destruct m as [|[|[|[|[|m]]]]]; try lia. now split.
Qed.

Lemma connectTrace_two random width height i j idxs net k :
  connectTrace random width height (i :: j :: idxs) net k =
  (i, net, k)
    :: (j, fst (connectNode random width height i net k),
           snd (connectNode random width height i net k))
    :: connectTrace random width height idxs
         (fst (connectNode random width height j
                 (fst (connectNode random width height i net k))
                 (snd (connectNode random width height i net k))))
         (snd (connectNode random width height j
                 (fst (connectNode random width height i net k))
                 (snd (connectNode random width height i net k)))).
Proof. reflexivity. Qed.

Lemma seq_120 : seq 0 (Z.to_nat 120) = 0%nat :: 1%nat :: seq 2 118.
Proof. reflexivity. Qed.

Lemma zero_first_calls :
  exists rest,
    callbacks (fun _ => 0) 800 600 false =
    (0%nat, (placed (fun _ => 0) 800 600 false, []),
       snd (placement (fun _ => 0) 800 600 false 0%nat))
    :: (1%nat,
        fst (connectNode (fun _ => 0) 800 600 0
               (placed (fun _ => 0) 800 600 false, [])
               (snd (placement (fun _ => 0) 800 600 false 0%nat))),
        snd (connectNode (fun _ => 0) 800 600 0
               (placed (fun _ => 0) 800 600 false, [])
               (snd (placement (fun _ => 0) 800 600 false 0%nat))))
    :: rest.
Proof.
  unfold callbacks.
  rewrite placed_length, nodeCount_800_600, seq_120, connectTrace_two.
  eexists. reflexivity.
Qed.

Lemma zero_count_main k t :
  t = main -> fst (connectionCount (fun _ => 0) t k) = 6%Z.
Proof.
  intros ->. cbv [connectionCount bind Math_random ret fst].
  apply Zfloor_eq. lra.
Qed.

(** The hub "mobility" has 12 candidates and 6 turns. *)
Lemma zero_first_hub :
  let random := fun _ : nat => 0 in
  let nodes := placed random 800 600 false in
  let k := snd (placement random 800 600 false 0%nat) in
  exists n,
    nth_error nodes 0 = Some n /\ id n = "mobility"%string /\
    let cc := fst (connectionCount random (type n) k) in
    let nearby := nearbyNodes nodes n 0 cc in
    cc = 6%Z /\
    List.length nearby = 12%nat /\
    trials cc nearby = 6%nat /\
    (List.length (snd (fst (connectNode random 800 600 0 (nodes, []) k))) <= 6)%nat /\
    (exists item, nth_error nearby 6 = Some item) /\
    ~ (forall j item, nth_error nearby j = Some item -> (j < trials cc nearby)%nat).
Proof.
  cbv zeta.
  pose proof (placed_length (fun _ => 0) 800 600 false) as Hlen.
  rewrite nodeCount_800_600 in Hlen.
  destruct (placed_split (fun _ => 0) 800 600 false)
    as (hubs & small & Hsplit & Hh & _).
  change (combine (centralNodes false) (seq 0 5))
    with ((mkCentral "mobility" "Mobility" main, 0%nat)
            :: combine (tl (centralNodes false)) (seq 1 4)) in Hh.
  inversion Hh as [|ci n cis hubs' [k' Hn] Hrest Eci Ehubs].
  cbn [fst snd] in Hn. clear Hh Eci. subst hubs.
  exists n.
  assert (Hn0 : nth_error (placed (fun _ => 0) 800 600 false) 0 = Some n)
    by now rewrite Hsplit.
  assert (Hid : id n = "mobility"%string) by now rewrite Hn.
  assert (Ht : type n = main) by now rewrite Hn.
  clear Hn Hsplit Hrest.
  set (k := snd (placement (fun _ => 0) 800 600 false 0%nat)).
  pose proof (zero_count_main k (type n) Ht) as Hcc.
  assert (HL : List.length
                 (nearbyNodes (placed (fun _ => 0) 800 600 false) n 0 6) = 12%nat).
  { rewrite nearbyNodes_length by (rewrite Hlen; lia). rewrite Hlen. reflexivity. }
  rewrite Hcc.
  assert (HT : trials 6 (nearbyNodes (placed (fun _ => 0) 800 600 false) n 0 6) = 6%nat).
  { unfold trials. rewrite HL. reflexivity. }
  split; [exact Hn0|]. split; [exact Hid|]. split; [reflexivity|].
  split; [exact HL|]. split; [exact HT|]. split; [|split].
  - destruct (connectNode_spec (fun _ => 0) 800 600 0
                (placed (fun _ => 0) 800 600 false, []) k n Hn0) as [_ He].
    cbv zeta in He. cbn [fst snd] in He. rewrite Hcc, HT in He.
    rewrite He. cbn [app].
    etransitivity; [apply flat_map_length_le; intros; apply accepted_length|].
    now rewrite length_seq.
  - destruct (nth_error
                (nearbyNodes (placed (fun _ => 0) 800 600 false) n 0 6) 6)
      as [item|] eqn:E; [now exists item|].
    apply nth_error_None in E. lia.
  - intros Hall.
    destruct (nth_error
                (nearbyNodes (placed (fun _ => 0) 800 600 false) n 0 6) 6)
      as [item|] eqn:E.
    + apply Hall in E. lia.
    + apply nth_error_None in E. lia.
Qed.

Lemma zero_callback_nth net m t :
  skeleton net = skeleton (placed (fun _ => 0) 800 600 false) ->
  nth_error net m = Some t ->
  match m with
  | 0%nat => x t = 280 /\ y t = 180
  | 1%nat => x t = 520 /\ y t = 180 /\ id t = "funding"%string /\ type t = main
  | 2%nat => x t = 400 /\ y t = 150
  | 3%nat => x t = 400 /\ y t = 240
  | 4%nat => x t = 320 /\ y t = 120
  | _ => x t = 240 /\ y t = 140
  end.
Proof.
  intros Hsk Hm.
  apply skeleton_nth_error in Hm. rewrite Hsk in Hm.
  apply nth_error_skeleton in Hm. destruct Hm as (t0 & Ht0 & Et0).
  apply zero_placed_nth in Ht0.
  assert (Hx : x t = x t0) by (change (x (erase t) = x (erase t0)); now rewrite Et0).
  assert (Hy : y t = y t0) by (change (y (erase t) = y (erase t0)); now rewrite Et0).
  assert (Hi : id t = id t0) by (change (id (erase t) = id (erase t0)); now rewrite Et0).
  assert (Hty : type t = type t0)
    by (change (type (erase t) = type (erase t0)); now rewrite Et0).
  rewrite Hx, Hy, Hi, Hty. exact Ht0.
Qed.

Lemma dist_at a b xa ya xb yb :
  x a = xa -> y a = ya -> x b = xb -> y b = yb ->
  dist a b = sqrt ((xa - xb) ^ 2 + (ya - yb) ^ 2).
Proof. intros <- <- <- <-. reflexivity. Qed.

(** Seen from the hub "funding" at (520, 180), the node of index 2 is at
    distance sqrt 15300 and every other node is at distance sqrt 18000
    at least. *)
Lemma zero_funding_distances net n :
  skeleton net = skeleton (placed (fun _ => 0) 800 600 false) ->
  nth_error net 1 = Some n ->
  forall m t, nth_error net m = Some t -> m <> 1%nat ->
    (m = 2%nat -> dist n t = sqrt 15300) /\
    (m <> 2%nat -> sqrt 18000 <= dist n t).
Proof.
  intros Hsk Hn m t Hm Hm1.
  destruct (zero_callback_nth net 1 n Hsk Hn) as (Hx & Hy & _).
  pose proof (zero_callback_nth net m t Hsk Hm) as Ht.
  destruct m as [|[|[|[|[|m]]]]]; [| congruence | | | |];
    destruct Ht as (Hx' & Hy');
    rewrite (dist_at n t _ _ _ _ Hx Hy Hx' Hy');
    (split; intros Hm2; [try discriminate Hm2|try congruence]);
    try (f_equal; lra);
    try (apply sqrt_le_1; lra).
Qed.

(** The hub "funding" gives its two nearest candidates the same
    threshold although the first is strictly closer. *)
Lemma zero_second_hub :
  exists net k n c0 c1,
    nth_error (callbacks (fun _ => 0) 800 600 false) 1 = Some (1%nat, net, k) /\
    nth_error (fst net) 1 = Some n /\ id n = "funding"%string /\
    let cc := fst (connectionCount (fun _ => 0) (type n) k) in
    let nearby := nearbyNodes (fst net) n 1 cc in
    (2 <= trials cc nearby)%nat /\
    nth_error nearby 0 = Some c0 /\ nth_error nearby 1 = Some c1 /\
    distance c0 < distance c1 /\
    probability (type n) 0 cc = probability (type n) 1 cc.
Proof.
  destruct zero_first_calls as (rest & E).
  pose proof (connectNode_skeleton (fun _ => 0) 800 600 0
                (placed (fun _ => 0) 800 600 false, [])
                (snd (placement (fun _ => 0) 800 600 false 0%nat))) as Hsk.
  cbn [fst] in Hsk.
  set (res := connectNode (fun _ => 0) 800 600 0
                (placed (fun _ => 0) 800 600 false, [])
                (snd (placement (fun _ => 0) 800 600 false 0%nat))) in *.
  pose proof (placed_length (fun _ => 0) 800 600 false) as Hlen.
  rewrite nodeCount_800_600 in Hlen.
  assert (Hl : List.length (fst (fst res)) = 120%nat).
  { rewrite <- skeleton_length, Hsk, skeleton_length, Hlen. reflexivity. }
  destruct (nth_error (fst (fst res)) 1) as [n|] eqn:Hn;
    [|apply nth_error_None in Hn; lia].
  destruct (zero_callback_nth _ 1 n Hsk Hn) as (_ & _ & Hid & Hty).
  pose proof (zero_count_main (snd res) (type n) Hty) as Hcc.
  assert (HL : List.length (nearbyNodes (fst (fst res)) n 1 6) = 12%nat).
  { rewrite nearbyNodes_length by lia. rewrite Hl. reflexivity. }
  assert (HT : trials 6 (nearbyNodes (fst (fst res)) n 1 6) = 6%nat).
  { unfold trials. rewrite HL. reflexivity. }
  destruct (nth_error (nearbyNodes (fst (fst res)) n 1 6) 0) as [c0|] eqn:H0;
    [|apply nth_error_None in H0; lia].
  destruct (nth_error (nearbyNodes (fst (fst res)) n 1 6) 1) as [c1|] eqn:H1;
    [|apply nth_error_None in H1; lia].
  exists (fst res), (snd res), n, c0, c1.
  split; [now rewrite E|]. split; [exact Hn|]. split; [exact Hid|].
  cbv zeta. rewrite Hcc, HT, H0, H1.
  split; [lia|]. split; [reflexivity|]. split; [reflexivity|].
  split; [|now rewrite Hty].
  destruct (nearbyNodes_item _ _ _ _ _ (nth_error_In _ _ H0)) as (Hi0 & Hn0 & Hd0).
  destruct (nearbyNodes_item _ _ _ _ _ (nth_error_In _ _ H1)) as (Hi1 & Hn1 & Hd1).
  assert (Hne : index c0 <> index c1).
  { intros Heq.
    pose proof (nearbyNodes_indices_NoDup (fst (fst res)) n 1 6) as Hnd.
    rewrite NoDup_nth_error in Hnd.
    specialize (Hnd 0%nat 1%nat). rewrite length_map, HL in Hnd.
    rewrite !nth_error_map, H0, H1 in Hnd. cbn [option_map] in Hnd.
    rewrite Heq in Hnd. specialize (Hnd ltac:(lia) eq_refl). discriminate. }
  destruct (nth_error (fst (fst res)) 2) as [t2|] eqn:H2;
    [|apply nth_error_None in H2; lia].
  assert (Hmin : distance c0 <= sqrt 15300).
  { rewrite <- (proj1 (zero_funding_distances _ n Hsk Hn 2%nat t2 H2 ltac:(lia)) eq_refl).
    apply (nearbyNodes_head_min _ _ _ _ _ 2%nat t2 H0); [lia|exact H2]. }
  assert (Hs : sqrt 15300 < sqrt 18000) by (apply sqrt_lt_1; lra).
  destruct (Nat.eq_dec (index c1) 2) as [E1|N1].
  - assert (N0 : index c0 <> 2%nat) by congruence.
    pose proof (proj2 (zero_funding_distances _ n Hsk Hn _ _ Hn0 Hi0) N0) as Hfar.
    rewrite <- Hd0 in Hfar. lra.
  - pose proof (proj2 (zero_funding_distances _ n Hsk Hn _ _ Hn1 Hi1) N1) as Hfar.
    rewrite <- Hd1 in Hfar. lra.
Qed.

(** C4, witness of the amended statement: the first callback of the
    layout drawn with every draw 0 on 800 by 600. *)
Lemma nearest_candidates_nearer_half_tried_witness :
  (forall m : nat, 0 <= (fun _ : nat => 0) m < 1) /\
  exists net k rest n,
    callbacks (fun _ => 0) 800 600 false = (0%nat, net, k) :: rest /\
    nth_error (fst net) 0 = Some n /\
    let cc := fst (connectionCount (fun _ => 0) (type n) k) in
    let nearby := nearbyNodes (fst net) n 0 cc in
    List.length nearby = Z.to_nat (cc * 2) /\
    trials cc nearby = Z.to_nat cc /\
    NoDup (map index nearby) /\
    ascending nearby.
Proof.
  assert (Hr : forall m : nat, 0 <= (fun _ : nat => 0) m < 1) by (intros; lra).
  split; [exact Hr|].
  destruct (nearest_candidates_nearer_half_tried (fun _ => 0) 800 600 false Hr)
    as (_ & _ & HF).
  destruct zero_first_calls as (rest & E).
  rewrite E in HF. apply Forall_inv in HF.
  destruct HF as (_ & n & Hn & _ & HK & HD & _ & HA & _ & HT & _).
  eexists _, _, _, n. split; [exact E|]. split; [exact Hn|].
  cbv zeta. repeat split; assumption.
Defined.

(** C4, as stated, fails: on a canvas of 800 by 600 with every draw 0,
    the hub "mobility" (index 0) has target count 6 and 12 candidates,
    but the loop makes 6 turns: it records at most 6 edges and never
    reads the candidate of rank 6, so half of the candidates are never
    tried; and the hub "funding" (index 1) gives the same threshold to
    its nearest candidate and to the next one, which is strictly
    farther: for a hub a closer candidate is not likelier. *)
Lemma hub_tries_half_of_its_candidates :
  (let random := fun _ : nat => 0 in
   let nodes := placed random 800 600 false in
   let k := snd (placement random 800 600 false 0%nat) in
   exists n,
     nth_error nodes 0 = Some n /\ id n = "mobility"%string /\
     let cc := fst (connectionCount random (type n) k) in
     let nearby := nearbyNodes nodes n 0 cc in
     cc = 6%Z /\
     List.length nearby = 12%nat /\
     trials cc nearby = 6%nat /\
     (List.length (snd (fst (connectNode random 800 600 0 (nodes, []) k))) <= 6)%nat /\
     (exists item, nth_error nearby 6 = Some item) /\
     ~ (forall j item, nth_error nearby j = Some item -> (j < trials cc nearby)%nat)) /\
  (exists net k n c0 c1,
     nth_error (callbacks (fun _ => 0) 800 600 false) 1 = Some (1%nat, net, k) /\
     nth_error (fst net) 1 = Some n /\ id n = "funding"%string /\
     let cc := fst (connectionCount (fun _ => 0) (type n) k) in
     let nearby := nearbyNodes (fst net) n 1 cc in
     (2 <= trials cc nearby)%nat /\
     nth_error nearby 0 = Some c0 /\ nth_error nearby 1 = Some c1 /\
     distance c0 < distance c1 /\
     probability (type n) 0 cc = probability (type n) 1 cc).
Proof. split; [exact zero_first_hub|exact zero_second_hub]. Qed.
